(** * Revive Print Kiosk: the print-job lifecycle, the file intake and the
      page-range handling of [raspberry_pi_kiosk.py]

    The Python program is embedded shallowly.  [PrintKiosk]'s attributes
    form the record [kiosk]; the temporary directory is a finite map from
    paths to contents; the dictionaries handed to and returned by CUPS are
    finite maps; [root.after(0, f)] appends a callback to a queue that the
    Tk loop runs later; a [try]/[except] body evaluates to an [outcome].
    Widgets, fonts, colours and animations are left out. *)

From Stdlib Require Import ZArith QArith Qround Lia String Ascii.
From stdpp Require Import base gmap sets list sorting strings pretty.

Local Open Scope string_scope.
Local Open Scope Z_scope.
Local Open Scope list_scope.

(** ** Configuration constants *)

Definition PRINTER_NAME : string := "HP_LaserJet_M208dw".

(** The text [show_preview] inserts into the custom-range entry. *)
Definition PLACEHOLDER : string := "e.g. 1-3,5".

(** ** Python values and control flow *)

(** The result of a statement sequence inside [try]: it runs to its end or
    an exception carrying [str(e)] leaves it. *)
Inductive outcome (A : Type) : Type :=
| Normal (a : A)
| Raised (msg : string).
Arguments Normal {A} a.
Arguments Raised {A} msg.

(** Truth value of [self.current_file]: [None] and [''] are false. *)
Definition truthy (f : option string) : bool :=
  match f with
  | None => false
  | Some s => negb (String.eqb s "")
  end.

(** ** Session state *)

Inductive screen : Set :=
| Welcome | Confirmation | Preview | Printing | Success.

(** The dictionary [self.print_settings], with its three fixed keys. *)
Record settings : Set := PrintSettings {
  page_range : string;
  orientation : string;
  duplex : string
}.

Section Kiosk.

(** Page images produced by [convert_from_path]. *)
Context {image : Type}.

Record kiosk : Type := Kiosk {
  current_screen : screen;
  current_file : option string;
  preview_images : list image;
  current_page : Z;
  print_settings : settings;
  cups_conn : bool;               (* [False] stands for [self.cups_conn = None] *)
  page_range_var : string;        (* the Tk variables read by [start_printing] *)
  custom_range : string;
  orientation_var : string;
  duplex_var : string;
  countdown : Z
}.

Definition set_screen (sc : screen) (k : kiosk) : kiosk :=
  Kiosk sc (current_file k) (preview_images k) (current_page k) (print_settings k)
        (cups_conn k) (page_range_var k) (custom_range k) (orientation_var k)
        (duplex_var k) (countdown k).

Definition set_current_file (f : option string) (k : kiosk) : kiosk :=
  Kiosk (current_screen k) f (preview_images k) (current_page k) (print_settings k)
        (cups_conn k) (page_range_var k) (custom_range k) (orientation_var k)
        (duplex_var k) (countdown k).

Definition set_current_page (p : Z) (k : kiosk) : kiosk :=
  Kiosk (current_screen k) (current_file k) (preview_images k) p (print_settings k)
        (cups_conn k) (page_range_var k) (custom_range k) (orientation_var k)
        (duplex_var k) (countdown k).

Definition set_preview_images (imgs : list image) (k : kiosk) : kiosk :=
  Kiosk (current_screen k) (current_file k) imgs (current_page k) (print_settings k)
        (cups_conn k) (page_range_var k) (custom_range k) (orientation_var k)
        (duplex_var k) (countdown k).

Definition set_print_settings (s : settings) (k : kiosk) : kiosk :=
  Kiosk (current_screen k) (current_file k) (preview_images k) (current_page k) s
        (cups_conn k) (page_range_var k) (custom_range k) (orientation_var k)
        (duplex_var k) (countdown k).

Definition set_option_vars (pr cr o d : string) (k : kiosk) : kiosk :=
  Kiosk (current_screen k) (current_file k) (preview_images k) (current_page k)
        (print_settings k) (cups_conn k) pr cr o d (countdown k).

Definition set_countdown (c : Z) (k : kiosk) : kiosk :=
  Kiosk (current_screen k) (current_file k) (preview_images k) (current_page k)
        (print_settings k) (cups_conn k) (page_range_var k) (custom_range k)
        (orientation_var k) (duplex_var k) c.

(** [PrintKiosk.__init__]: the state before any upload; [conn] tells whether
    [cups.Connection()] succeeded. *)
Definition init (conn : bool) : kiosk :=
  Kiosk Welcome None [] 0 (PrintSettings "all" "portrait" "none") conn
        "all" "" "portrait" "none" 0.

(** ** Screens *)

Definition show_welcome (k : kiosk) : kiosk := set_screen Welcome k.

Definition show_file_confirmation (k : kiosk) : kiosk := set_screen Confirmation k.

Definition show_printing (k : kiosk) : kiosk := set_screen Printing k.

(** [PrintKiosk.show_success] up to its last statement, the call
    [self.do_countdown()]; that call is the first one of [countdown_chain]
    below. *)
Definition show_success (k : kiosk) : kiosk :=
  set_countdown 5 (set_screen Success k).

(** ** Collecting the print settings *)

(** [PrintKiosk.start_printing], up to the start of the worker thread, which
    then runs [do_print] on the resulting state. *)
Definition start_printing (k : kiosk) : kiosk :=
  let page_range :=
    if String.eqb (page_range_var k) "custom" then
      let page_range := custom_range k in
      if String.eqb page_range PLACEHOLDER then "all" else page_range
    else "all" in
  show_printing
    (set_print_settings (PrintSettings page_range (orientation_var k) (duplex_var k)) k).

(** ** Spooler options *)

(** The dictionary [options] that [do_print] builds from
    [self.print_settings]. *)
Definition build_options (s : settings) : gmap string string :=
  let options : gmap string string := ∅ in
  let options :=
    if negb (String.eqb (page_range s) "all")
    then <["page-ranges" := page_range s]> options
    else options in
  let options :=
    if String.eqb (orientation s) "landscape"
    then <["orientation-requested" := "4"]> options
    else <["orientation-requested" := "3"]> options in
  let options :=
    if String.eqb (duplex s) "long" then <["sides" := "two-sided-long-edge"]> options
    else if String.eqb (duplex s) "short" then <["sides" := "two-sided-short-edge"]> options
    else <["sides" := "one-sided"]> options in
  options.

(** ** The Tk event queue and the effects of the worker thread *)

(** What [root.after(0, f)] can be asked to run. *)
Inductive callback : Type :=
| StatusLabel (text : string)                 (* [status_label.config(text=...)] *)
| ProgressLabel (text : string)               (* [progress_label.config(text=...)] *)
| ShowSuccess
| ShowErrorOfE (title : string)               (* [lambda: messagebox.showerror(title,
                                                 str(e))]: the variable [e] of
                                                 [do_print] is read when the
                                                 callback runs *)
| ShowWelcome
| ShowFileConfirmation (filename : string) (filesize : Z).

(** What [do_print] does to the outside, in program order. *)
Inductive effect : Type :=
| After (cb : callback)                       (* [self.root.after(0, cb)] *)
| Sleep (seconds : Z)                         (* [time.sleep] *)
| PrintFile (printer : string) (file : option string) (title : string)
            (options : gmap string string)    (* [cups_conn.printFile] *)
| GetJobs                                     (* [cups_conn.getJobs] *)
| Stdout (line : string).                     (* [print] *)

(** The print spooler as [do_print] meets it: the answer to [printFile]
    and the answers to the successive calls of [getJobs], each a dictionary
    from job ids to job attributes, or an exception. *)
Record spooler : Type := Spooler {
  printFile : string → option string → string → gmap string string → outcome Z;
  getJobs : list (outcome (gmap Z (gmap string Z)))
}.

(** The loop [while True] of [do_print], run against the answers [polls].
    The second component is [None] when the answers are used up and the loop
    is still polling. *)
Fixpoint monitor (job_id : Z) (polls : list (outcome (gmap Z (gmap string Z))))
  : list effect * option (outcome unit) :=
  match polls with
  | [] => ([], None)
  | answer :: polls' =>
      let '(trace, r) :=
        match answer with
        | Raised e => ([], Some (Raised e))
        | Normal jobs =>
            match jobs !! job_id with
            | None => ([], Some (Normal tt))                       (* break *)
            | Some attrs =>
                match (attrs : gmap string Z) !! "job-state" with
                | None => ([], Some (Raised "'job-state'"))        (* KeyError *)
                | Some job_state =>
                    if (job_state =? 9)%Z then ([], Some (Normal tt))  (* break *)
                    else if (job_state =? 8)%Z
                    then ([], Some (Raised "Print job cancelled"))
                    else monitor job_id polls'
                end
            end
        end in
      (Sleep 1 :: GetJobs :: trace, r)
  end.

(** The body of [try] in [do_print]. *)
Definition do_print_try (sp : spooler) (k : kiosk)
  : list effect * option (outcome unit) :=
  let announce :=
    [After (StatusLabel "Sending to printer...");
     After (ProgressLabel "⏳ Communicating with HP LaserJet");
     Sleep 1] in
  if negb (cups_conn k)
  then (announce, Some (Raised "CUPS connection not available"))
  else
    let options := build_options (print_settings k) in
    let call := PrintFile PRINTER_NAME (current_file k) "Print Job" options in
    match printFile sp PRINTER_NAME (current_file k) "Print Job" options with
    | Raised e => (announce ++ [call], Some (Raised e))
    | Normal job_id =>
        let '(trace, r) := monitor job_id (getJobs sp) in
        (announce ++
           call :: After (StatusLabel "Printing...")
                :: After (ProgressLabel ("📄 Job ID: " +:+ pretty job_id))
                :: trace,
         r)
    end.

(** [PrintKiosk.do_print]: the [try] body, then either the success callback
    or the [except] clause. *)
Definition do_print (sp : spooler) (k : kiosk)
  : list effect * option (outcome unit) :=
  let '(trace, r) := do_print_try sp k in
  match r with
  | None => (trace, None)
  | Some (Normal _) => (trace ++ [After ShowSuccess], r)
  | Some (Raised e) =>
      (trace ++ [Stdout ("Print error: " +:+ e);
                 After (ShowErrorOfE "Print Error");
                 After ShowWelcome],
       r)
  end.

(** The callbacks a trace leaves in the Tk queue, in order. *)
Definition scheduled (trace : list effect) : list callback :=
  omap (λ e, match e with After cb => Some cb | _ => None end) trace.

(** The calls of [printFile] in a trace. *)
Definition submissions (trace : list effect)
  : list (string * option string * string * gmap string string) :=
  omap (λ e, match e with
             | PrintFile p f t o => Some (p, f, t, o)
             | _ => None
             end) trace.

(** The Tk loop running one callback, once the worker that scheduled it
    has returned: the session state and the dialogs shown to the user so
    far.  Python unbinds the variable [e] of [except Exception as e] at the
    end of the clause, so the callback [ShowErrorOfE], run after [do_print]
    has left its [except] clause, raises [NameError] when it reads [e]: Tk
    reports the exception of the callback on stderr and no dialog opens. *)
Definition run_callback (u : kiosk * list (string * string)) (cb : callback)
  : kiosk * list (string * string) :=
  match cb with
  | StatusLabel _ | ProgressLabel _ => u
  | ShowSuccess => (show_success u.1, u.2)
  | ShowErrorOfE _ => u
  | ShowWelcome => (show_welcome u.1, u.2)
  | ShowFileConfirmation _ _ => (show_file_confirmation u.1, u.2)
  end.

Definition tk_loop (cbs : list callback) (u : kiosk * list (string * string))
  : kiosk * list (string * string) :=
  foldl run_callback u cbs.

(** Pressing Print: [start_printing], the worker thread running [do_print]
    to its end, and then the Tk loop running the callbacks of the worker in
    the order they were scheduled. *)
Definition print_session (sp : spooler) (k : kiosk)
  : kiosk * list (string * string) :=
  let k' := start_printing k in
  tk_loop (scheduled (do_print sp k').1) (k', []).

(** ** File intake *)

(** One part of a multipart upload. *)
Record upload : Type := Upload {
  filename : string;
  content : list Byte.byte
}.

(** The JSON body and the HTTP status returned by [receive_file]. *)
Record response : Type := Response {
  status : Z;
  success : bool;
  error : option string;
  message : option string;
  sent_filename : option string
}.

(** The kiosk, the temporary directory and the Tk queue. *)
Record world : Type := World {
  app : kiosk;
  files : gmap string (list Byte.byte);
  pending : list callback
}.

(** [posixpath.join] of two components. *)
Definition os_path_join (a b : string) : string :=
  if String.prefix "/" b then b
  else if String.eqb a "" || String.eqb (String.substring (String.length a - 1) 1 a) "/"
  then a +:+ b
  else a +:+ "/" +:+ b.

(** [int(x)] for the float [x = time.time()]: truncation towards zero. *)
Definition int_of_time (now : Q) : Z := Z.quot (Qnum now) (Zpos (Qden now)).

(** The path [receive_file] stores an upload under. *)
Definition stored_path (temp_dir : string) (now : Q) (name : string) : string :=
  os_path_join temp_dir ("print_" +:+ pretty (int_of_time now) +:+ "_" +:+ name).

(** The statement inside the [try] of [receive_file] that raises an
    exception: [file.save], which may have created the file and written
    [written] to it before it failed ([None]: the file was not created);
    [os.path.getsize]; or [self.root.after]. *)
Inductive raising : Type :=
| AtSave (written : option (list Byte.byte))
| AtGetsize
| AtAfter.

(** The Flask handler [receive_file].  [temp_dir] is
    [tempfile.gettempdir()], [now] is [time.time()], [fault] is the exception
    raised inside the [try] block once the file part has been found, if one
    is raised, with the statement that raises it, and [request_files] is
    [request.files]. *)
Definition receive_file (temp_dir : string) (now : Q)
    (fault : option (raising * string))
    (request_files : gmap string upload) (w : world) : response * world :=
  match request_files !! "file" with
  | None => (Response 400 false (Some "No file provided") None None, w)
  | Some file =>
      if String.eqb (filename file) ""
      then (Response 400 false (Some "Empty filename") None None, w)
      else
        let filepath := stored_path temp_dir now (filename file) in
        let files' := <[filepath := content file]> (files w) in
        let filesize := Z.of_nat (length (content file)) in
        match fault with
        | Some (AtSave None, e) => (Response 500 false (Some e) None None, w)
        | Some (AtSave (Some bytes), e) =>
            (Response 500 false (Some e) None None,
             World (app w) (<[filepath := bytes]> (files w)) (pending w))
        | Some (AtGetsize, e) =>
            (Response 500 false (Some e) None None,
             World (app w) files' (pending w))
        | Some (AtAfter, e) =>
            (Response 500 false (Some e) None None,
             World (set_current_file (Some filepath) (app w)) files' (pending w))
        | None =>
            (Response 200 true None (Some "File received") (Some (filename file)),
             World (set_current_file (Some filepath) (app w)) files'
                   (pending w ++ [ShowFileConfirmation (filename file) filesize]))
        end
  end.

(** [PrintKiosk.cleanup], called when the window is closed. *)
Definition cleanup (w : world) : world :=
  match current_file (app w) with
  | Some path =>
      if truthy (Some path) && bool_decide (is_Some (files w !! path))
      then World (app w) (delete path (files w)) (pending w)
      else w
  | None => w
  end.

(** ** Preview and page navigation *)

(** [PrintKiosk.show_preview].  [disk] is the temporary directory and
    [convert] the answer of [convert_from_path] to this call.  The second
    component lists the error dialogs shown. *)
Definition show_preview (disk : gmap string (list Byte.byte))
    (convert : outcome (list image)) (k : kiosk)
  : kiosk * list (string * string) :=
  let k := set_screen Preview k in
  if negb (truthy (current_file k)) ||
     negb (bool_decide (is_Some (current_file k ≫= λ path, disk !! path)))
  then (show_welcome k, [("Error", "File not found")])
  else
    match convert with
    | Raised e => (show_welcome k, [("Error", "Could not preview file: " +:+ e)])
    | Normal images =>
        let k := set_current_page 0 (set_preview_images images k) in
        (set_option_vars "all" PLACEHOLDER "portrait" "none" k, [])
    end.

(** [self.preview_images[self.current_page]] as [update_preview] reads it:
    nothing is drawn for an empty list, a negative index counts from the
    end, and an index outside the list raises [IndexError]. *)
Definition update_preview (k : kiosk) : outcome (option image) :=
  let n := Z.of_nat (length (preview_images k)) in
  let i := current_page k in
  if (n =? 0)%Z then Normal None
  else
    let j := if (i <? 0)%Z then i + n else i in
    if (0 <=? j)%Z && (j <? n)%Z
    then Normal (preview_images k !! Z.to_nat j)
    else Raised "list index out of range".

(** [PrintKiosk.prev_page] *)
Definition prev_page (k : kiosk) : kiosk :=
  if (0 <? current_page k)%Z then set_current_page (current_page k - 1) k else k.

(** [PrintKiosk.next_page] *)
Definition next_page (k : kiosk) : kiosk :=
  if (current_page k <? Z.of_nat (length (preview_images k)) - 1)%Z
  then set_current_page (current_page k + 1) k
  else k.

(** The user actions and events that change the session state. *)
Inductive event : Type :=
| EvUpload (path : string)                    (* a successful [receive_file] *)
| EvShowPreview (disk : gmap string (list Byte.byte)) (convert : outcome (list image))
| EvPrevPage
| EvNextPage
| EvStartPrinting
| EvCallback (cb : callback).

Definition step (k : kiosk) (ev : event) : kiosk :=
  match ev with
  | EvUpload path => set_current_file (Some path) k
  | EvShowPreview disk convert => (show_preview disk convert k).1
  | EvPrevPage => prev_page k
  | EvNextPage => next_page k
  | EvStartPrinting => start_printing k
  | EvCallback cb => (run_callback (k, []) cb).1
  end.

Definition run_events (k : kiosk) (evs : list event) : kiosk := foldl step k evs.

(** The bound the page index is to respect. *)
Definition page_index_ok (k : kiosk) : Prop :=
  0 ≤ current_page k ∧
  (1 ≤ Z.of_nat (length (preview_images k)) →
   current_page k ≤ Z.of_nat (length (preview_images k)) - 1).

End Kiosk.

Arguments kiosk : clear implicits.
Arguments world : clear implicits.
Arguments event : clear implicits.

(** ** The page-range grammar of the specification

    The program holds a page range only as text.  The definitions of this
    module say which texts the specification counts as valid expressions,
    tokens separated by commas, each a 1-based integer or an inclusive range
    [a-b], and what its parser is to return.  They follow the
    specification's words, not the program. *)
Module RangeGrammar.

Definition digit (c : ascii) : option Z :=
  let n := Z.of_nat (nat_of_ascii c) in
  if (48 <=? n) && (n <=? 57) then Some (n - 48) else None.

Fixpoint digits (acc : Z) (s : string) : option Z :=
  match s with
  | EmptyString => Some acc
  | String c s' =>
      match digit c with
      | Some d => digits (10 * acc + d) s'
      | None => None
      end
  end.

(** A non-empty run of decimal digits. *)
Definition number (s : string) : option Z :=
  match s with
  | EmptyString => None
  | _ => digits 0 s
  end.

(** [s.split(sep)] *)
Fixpoint split_on (sep : ascii) (s : string) : list string :=
  match s with
  | EmptyString => [""]
  | String c s' =>
      if Ascii.eqb c sep then "" :: split_on sep s'
      else match split_on sep s' with
           | [] => [String c ""]
           | t :: ts => String c t :: ts
           end
  end.

(** One token: [n] stands for the range from [n] to [n]. *)
Definition token (t : string) : option (Z * Z) :=
  match split_on "-" t with
  | [n] => a ← number n; Some (a, a)
  | [lo; hi] => a ← number lo; b ← number hi; Some (a, b)
  | _ => None
  end.

(** The ranges an expression is made of, in the order written; [None] when
    a token is malformed. *)
Definition ranges (expr : string) : option (list (Z * Z)) :=
  mapM token (split_on "," expr).

Definition range_ok (total : Z) (r : Z * Z) : Prop :=
  1 ≤ r.1 ∧ r.1 ≤ r.2 ∧ r.2 ≤ total.

(** A valid expression: "all", an empty or placeholder text, or tokens that
    are all well-formed, within the document and with [a ≤ b]. *)
Definition valid (expr : string) (total : Z) : Prop :=
  expr = "all" ∨ expr = "" ∨ expr = PLACEHOLDER ∨
  ∃ rs, ranges expr = Some rs ∧ Forall (range_ok total) rs.

(** What the specified parser is to return. *)
Definition ascending_within (total : Z) (l : list Z) : Prop :=
  StronglySorted Z.lt l ∧ NoDup l ∧ Forall (λ p, 1 ≤ p ≤ total) l.

End RangeGrammar.

(** ** The page range from the entry field to the spooler *)

(** A Python value that can stand for a page range: a [str], which is all
    the program ever holds, or the [list] of page numbers that the parser of
    the specification returns. *)
Inductive page_range_value : Type :=
| RangeText (text : string)
| RangePages (pages : list Z).

Section PageRange.

Context {image : Type}.

(** The user selects Custom and the entry field holds [expr]. *)
Definition custom_selected (expr : string) (k : kiosk image) : Prop :=
  page_range_var k = "custom" ∧ custom_range k = expr.

(** The [page-ranges] option of the job that Print submits from [k]. *)
Definition page_ranges_option (k : kiosk image) : option string :=
  build_options (print_settings (start_printing k)) !! "page-ranges".

(** The Python value that the page-range operation yields from the state
    [k] in which Print is pressed: [self.print_settings['page_range']],
    always a [str]. *)
Definition page_range_value_of (k : kiosk image) : page_range_value :=
  RangeText (page_range (print_settings (start_printing k))).

(** The statement of the specification for one expression and one page
    count: the operation returns a sequence of page numbers, strictly
    ascending, free of duplicates and within the document. *)
Definition parse_returns_pages_claim (expr : string) (total : Z) : Prop :=
  RangeGrammar.valid expr total → 1 ≤ total →
  ∀ k : kiosk image, custom_selected expr k →
    ∃ l, page_range_value_of k = RangePages l
         ∧ RangeGrammar.ascending_within total l.

(** The statement of the specification for an expression that is not valid:
    the print run fails, and nothing is submitted to the spooler. *)
Definition parse_rejects_claim (expr : string) (total : Z) : Prop :=
  ¬ RangeGrammar.valid expr total →
  ∀ (sp : spooler) (k : kiosk image), custom_selected expr k →
    (∃ e, (do_print sp (start_printing k)).2 = Some (Raised e))
    ∧ submissions (do_print sp (start_printing k)).1 = [].

End PageRange.
(** ** Texts without a separator *)

(** The character [c] does not occur in [s]. *)
Definition free_of (c : ascii) (s : string) : Prop :=
  ∀ s' r, s ≠ s' +:+ String c r.

(** ** What the spooler answers while a job is followed *)

(** The answer to [getJobs] lists job [job_id] with status [code]. *)
Definition reports (job_id code : Z) (answer : outcome (gmap Z (gmap string Z))) : Prop :=
  ∃ jobs attrs,
    answer = Normal jobs ∧ jobs !! job_id = Some attrs ∧ attrs !! "job-state" = Some code.

(** The answer lists the job with a status that is neither 9 (completed)
    nor 8 (cancelled). *)
Definition still_printing (job_id : Z) (answer : outcome (gmap Z (gmap string Z))) : Prop :=
  ∃ code, reports job_id code answer ∧ code ≠ 9 ∧ code ≠ 8.

(** The answer no longer lists the job. *)
Definition job_gone (job_id : Z) (answer : outcome (gmap Z (gmap string Z))) : Prop :=
  ∃ jobs, answer = Normal jobs ∧ jobs !! job_id = None.

(** The effects of [n] rounds of the polling loop. *)
Definition poll_trace (n : nat) : list effect :=
  mjoin (replicate n [Sleep 1; GetJobs]).

(** ** Two uploads in a row *)

Section TwoUploads.

Context {image : Type}.

(** A request whose only part is [file], under the field name [file]. *)
Definition request_with (file : upload) : gmap string upload := {["file" := file]}.

(** The world after [first] is received at [now1] and [second] at [now2],
    both stored without a fault. *)
Definition after_two_uploads (temp_dir : string) (now1 now2 : Q)
    (first second : upload) (w : world image) : world image :=
  (receive_file temp_dir now2 None (request_with second)
     (receive_file temp_dir now1 None (request_with first) w).2).2.

(** The statement of the specification for a first upload superseded by a
    second: the first upload's stored file no longer exists. *)
Definition superseded_deleted_claim (temp_dir : string) (now1 now2 : Q)
    (first second : upload) (w : world image) : Prop :=
  filename first ≠ "" → filename second ≠ "" →
  files (after_two_uploads temp_dir now1 now2 first second w)
    !! stored_path temp_dir now1 (filename first) = None.

End TwoUploads.

(** ** Start-up, timers and easter eggs *)

Definition KONAMI_CODE : list string :=
  ["Up"; "Up"; "Down"; "Down"; "Left"; "Right"; "Left"; "Right"; "b"; "a"].


(** A key press as Tk reports it. *)
Record key_event : Type := KeyEvent {
  keysym : string;
  char : string
}.

(** The easter-egg attributes of [PrintKiosk]; [parties] counts the calls
    of [trigger_party_mode]. *)
Record eggs : Type := Eggs {
  konami_progress : list string;
  secret_clicks : Z;
  parties : nat
}.

Definition no_eggs : eggs := Eggs [] 0 0.

(** [PrintKiosk.check_konami] *)
Definition check_konami (event : key_event) (g : eggs) : eggs :=
  let key := keysym event in
  let key := if bool_decide (key ∈ ["b"; "a"]) then char event else key in
  let progress := konami_progress g ++ [key] in
  let progress :=
    if (length KONAMI_CODE <? length progress)%nat
    then tail progress                                   (* [pop(0)] *)
    else progress in
  if bool_decide (progress = KONAMI_CODE)
  then Eggs [] (secret_clicks g) (S (parties g))
  else Eggs progress (secret_clicks g) (parties g).

(** [PrintKiosk.secret_click] *)
Definition secret_click (g : eggs) : eggs :=
  let clicks := secret_clicks g + 1 in
  if 10 <=? clicks
  then Eggs (konami_progress g) 0 (S (parties g))
  else Eggs (konami_progress g) clicks (parties g).

(** Pressing a key whose [keysym] and [char] are both [key]. *)
Definition press (key : string) : key_event := KeyEvent key key.

(** The key events of a list, handled one after the other. *)
Definition key_presses (events : list key_event) (g : eggs) : eggs :=
  foldl (λ g event, check_konami event g) g events.

Section Timers.

Context {image : Type}.

(** [PrintKiosk.do_countdown]; the second component is the delay in
    milliseconds after which it asks to be called again. *)
Definition do_countdown (k : kiosk image) : kiosk image * option Z :=
  match current_screen k with
  | Success =>
      if 0 <? countdown k
      then (set_countdown (countdown k - 1) k, Some 1000)
      else (show_welcome k, None)
  | _ => (k, None)
  end.

(** The chain of calls of [do_countdown], cut after [calls] calls, with the
    time it has taken: the first call is the one [show_success] makes when it
    has drawn the screen, each further one is made by [root.after] after the
    delay the call before asked for. *)
Fixpoint countdown_chain (calls : nat) (k : kiosk image) : kiosk image * Z :=
  match calls with
  | O => (k, 0)
  | S calls' =>
      match do_countdown k with
      | (k', Some delay) =>
          let '(k'', elapsed) := countdown_chain calls' k' in (k'', delay + elapsed)
      | (k', None) => (k', 0)
      end
  end.

(** [PrintKiosk.draw_spinner] on [self.spinner_angle]; the second component
    is the delay after which it asks to be called again. *)
Definition draw_spinner (k : kiosk image) (spinner_angle : Z) : Z * option Z :=
  match current_screen k with
  | Printing => ((spinner_angle + 10) `mod` 360, Some 50)
  | _ => (spinner_angle, None)
  end.

(** The text of [page_label] and the states of the two navigation buttons
    as [update_preview] sets them. *)
Definition page_label (k : kiosk image) : string :=
  "Page " +:+ pretty (current_page k + 1) +:+ " of "
          +:+ pretty (Z.of_nat (length (preview_images k))).

Definition prev_enabled (k : kiosk image) : bool := 0 <? current_page k.

Definition next_enabled (k : kiosk image) : bool :=
  current_page k <? Z.of_nat (length (preview_images k)) - 1.

(** [show_preview] on the kiosk and the temporary directory of a world. *)
Definition preview_in (convert : outcome (list image)) (w : world image)
  : kiosk image * list (string * string) :=
  show_preview (files w) convert (app w).

End Timers.

(** ** Spooler options: properties *)

Lemma build_options_page_ranges (s : settings) :
  build_options s !! "page-ranges" =
  if String.eqb (page_range s) "all" then None else Some (page_range s).
Proof.
  unfold build_options.
  destruct (String.eqb (page_range s) "all"); simpl;
    destruct (String.eqb (orientation s) "landscape");
    destruct (String.eqb (duplex s) "long");
    try destruct (String.eqb (duplex s) "short");
    repeat (rewrite lookup_insert_ne by discriminate);
    first [ apply lookup_insert_eq | apply lookup_empty ].
Qed.

(** C6: landscape, long-edge duplex and page range "all" give exactly the
    orientation code 4 and the sides mode two-sided-long-edge, with no
    page-ranges key; for any settings the page-ranges key is absent exactly
    when the page range is "all". *)
Theorem build_options_landscape_long_all :
  build_options (PrintSettings "all" "landscape" "long") !! "orientation-requested" = Some "4"
  ∧ build_options (PrintSettings "all" "landscape" "long") !! "sides" = Some "two-sided-long-edge"
  ∧ build_options (PrintSettings "all" "landscape" "long") !! "page-ranges" = None
  ∧ dom (build_options (PrintSettings "all" "landscape" "long"))
      = ({["orientation-requested"; "sides"]} : gset string)
  ∧ ∀ s : settings,
      build_options s !! "page-ranges" = None ↔ page_range s = "all".
Proof.
  split; [reflexivity |].
  split; [reflexivity |].
  split; [reflexivity |].
  split.
  - unfold build_options; simpl. rewrite !dom_insert_L, dom_empty_L. set_solver.
  - intros s. rewrite build_options_page_ranges.
    destruct (String.eqb_spec (page_range s) "all"); split; congruence.
Qed.

(** ** From the entry field to the spooler options *)

Section PageRangeFacts.

Context {image : Type}.
Implicit Types (k : kiosk image) (sp : spooler) (expr : string).

Lemma start_printing_page_range k :
  page_range (print_settings (start_printing k)) =
  if String.eqb (page_range_var k) "custom"
  then if String.eqb (custom_range k) PLACEHOLDER then "all" else custom_range k
  else "all".
Proof. reflexivity. Qed.

(** Whatever text the entry holds is kept as it is, "all" and the
    placeholder apart. *)
Lemma page_ranges_option_custom expr k :
  custom_selected expr k →
  page_ranges_option k =
  if String.eqb expr "all" || String.eqb expr PLACEHOLDER then None else Some expr.
Proof.
  intros [Hvar Hentry]. unfold page_ranges_option.
  rewrite build_options_page_ranges, start_printing_page_range, Hvar, Hentry.
  simpl.
  destruct (String.eqb_spec expr PLACEHOLDER) as [-> | _]; [reflexivity |].
  rewrite orb_false_r. reflexivity.
Qed.

Lemma monitor_submissions job_id polls :
  submissions (monitor job_id polls).1 = [].
Proof.
  induction polls as [| answer polls IH]; [reflexivity |].
  simpl. destruct answer as [jobs | e]; [| reflexivity].
  destruct (jobs !! job_id) as [attrs |]; [| reflexivity].
  destruct (attrs !! "job-state") as [job_state |]; [| reflexivity].
  destruct (job_state =? 9); [reflexivity |].
  destruct (job_state =? 8); [reflexivity |].
  destruct (monitor job_id polls) as [trace r]. exact IH.
Qed.

(** With a spooler connection [do_print] calls [printFile] once, with the
    options built from the settings; without one it never calls it. *)
Lemma do_print_submissions sp k :
  submissions (do_print sp k).1 =
  if cups_conn k
  then [(PRINTER_NAME, current_file k, "Print Job", build_options (print_settings k))]
  else [].
Proof.
  unfold do_print, do_print_try.
  destruct (cups_conn k); simpl; [| reflexivity].
  destruct (printFile sp _ _ _ _) as [job_id | e]; [| reflexivity].
  pose proof (monitor_submissions job_id (getJobs sp)) as Hm.
  destruct (monitor job_id (getJobs sp)) as [trace r]. simpl in Hm.
  assert (Hsub : ∀ tail, submissions tail = [] → submissions (trace ++ tail) = []).
  { intros tail Ht. unfold submissions in *. rewrite omap_app.
    unfold submissions in Hm. rewrite Hm, Ht. reflexivity. }
  destruct r as [[[] | e] |]; simpl;
    unfold submissions; simpl; fold (submissions trace);
    fold (submissions (trace ++ [After ShowSuccess]));
    rewrite ?Hm, ?Hsub; reflexivity.
Qed.

End PageRangeFacts.

(** C10: with Custom selected and the entry still holding the placeholder
    "e.g. 1-3,5", the settings get page range "all", and the job is submitted
    without a page-ranges option. *)
Theorem placeholder_prints_all {image : Type} (k : kiosk image) (sp : spooler) :
  custom_selected PLACEHOLDER k →
  page_range (print_settings (start_printing k)) = "all"
  ∧ page_ranges_option k = None
  ∧ (cups_conn k = true →
     ∃ options,
       submissions (do_print sp (start_printing k)).1
         = [(PRINTER_NAME, current_file k, "Print Job", options)]
       ∧ options !! "page-ranges" = None).
Proof.
  intros Hsel. pose proof (page_ranges_option_custom _ _ Hsel) as Hopt.
  destruct Hsel as [Hvar Hentry].
  split; [| split].
  - rewrite start_printing_page_range, Hvar, Hentry. reflexivity.
  - exact Hopt.
  - intros Hconn. eexists. split.
    + rewrite do_print_submissions. simpl. rewrite Hconn. reflexivity.
    + exact Hopt.
Qed.

Lemma placeholder_prints_all_witness :
  let k := set_option_vars "custom" "e.g. 1-3,5" "portrait" "none" (@init unit true) in
  custom_selected PLACEHOLDER k
  ∧ page_range (print_settings (start_printing k)) = "all"
  ∧ page_ranges_option k = None.
Proof.
  intros k.
  assert (Hsel : custom_selected PLACEHOLDER k) by (split; reflexivity).
  split; [exact Hsel |].
  pose proof (placeholder_prints_all k (Spooler (λ _ _ _ _, Normal 1) []) Hsel)
    as (H1 & H2 & _).
  split; [exact H1 | exact H2].
Defined.

(** C1, as the code has it: there is no parser.  For every expression,
    valid or not, the empty one included, and whatever the page count, the
    page-range operation returns no sequence of pages: with Custom selected
    it copies the text of the entry, unchanged but for the placeholder, which
    becomes "all", into the print settings, and sends it unchanged as the
    page-ranges option, which is left out for "all" and for the placeholder
    only. *)
Theorem page_range_copied_not_parsed {image : Type} (expr : string) (k : kiosk image) :
  custom_selected expr k →
  page_range_value_of k
    = RangeText (if String.eqb expr PLACEHOLDER then "all" else expr)
  ∧ (∀ l, page_range_value_of k ≠ RangePages l)
  ∧ page_ranges_option k
    = (if String.eqb expr "all" || String.eqb expr PLACEHOLDER then None else Some expr).
Proof.
  intros Hsel. pose proof (page_ranges_option_custom _ _ Hsel) as Hopt.
  destruct Hsel as [Hvar Hentry].
  split; [| split; [discriminate | exact Hopt]].
  unfold page_range_value_of.
  rewrite start_printing_page_range, Hvar, Hentry. reflexivity.
Qed.

(** The two examples of the specification, and the empty entry. *)
Lemma page_range_copied_not_parsed_witness :
  let custom expr := set_option_vars "custom" expr "portrait" "none" (@init unit true) in
  (page_range_value_of (custom "1-3,5") = RangeText "1-3,5"
   ∧ page_ranges_option (custom "1-3,5") = Some "1-3,5")
  ∧ (page_range_value_of (custom "all") = RangeText "all"
     ∧ page_ranges_option (custom "all") = None)
  ∧ (page_range_value_of (custom "") = RangeText ""
     ∧ page_ranges_option (custom "") = Some "").
Proof.
  intros custom.
  assert (Hsel : ∀ expr, custom_selected expr (custom expr)) by (intros; split; reflexivity).
  destruct (page_range_copied_not_parsed "1-3,5" _ (Hsel "1-3,5")) as (H1 & _ & H1').
  destruct (page_range_copied_not_parsed "all" _ (Hsel "all")) as (H2 & _ & H2').
  destruct (page_range_copied_not_parsed "" _ (Hsel "")) as (H3 & _ & H3').
  split; [split; [exact H1 | exact H1'] |].
  split; [split; [exact H2 | exact H2'] | split; [exact H3 | exact H3']].
Defined.

(** C1 as stated fails, already on the examples of the specification:
    "1-3,5" is valid for 10 pages and "all" for 5, and what the operation
    yields is the text "1-3,5", respectively "all", not the list [1; 2; 3; 5],
    respectively [1; 2; 3; 4; 5], nor any other list of page numbers. *)
Lemma parse_returns_pages_claim_fails :
  ¬ @parse_returns_pages_claim unit "1-3,5" 10
  ∧ ¬ @parse_returns_pages_claim unit "all" 5.
Proof.
  split; intros Hclaim.
  - destruct Hclaim
      with (k := set_option_vars "custom" "1-3,5" "portrait" "none" (@init unit true))
      as (l & Hl & _).
    + right; right; right. exists [(1, 3); (5, 5)].
      split; [reflexivity |]. repeat constructor; simpl; lia.
    + lia.
    + split; reflexivity.
    + discriminate Hl.
  - destruct Hclaim
      with (k := set_option_vars "custom" "all" "portrait" "none" (@init unit true))
      as (l & Hl & _).
    + left. reflexivity.
    + lia.
    + split; reflexivity.
    + discriminate Hl.
Qed.

(** C2, as the code has it: no expression is rejected.  With Custom selected,
    any text other than "all" and the placeholder, malformed, out of range
    or reversed as it may be, becomes the page range of the settings
    unchanged, and with a spooler connection the job is submitted once with
    that text as its page-ranges option. *)
Theorem custom_range_submitted_unchecked {image : Type}
    (expr : string) (sp : spooler) (k : kiosk image) :
  custom_selected expr k → expr ≠ "all" → expr ≠ PLACEHOLDER → cups_conn k = true →
  page_range (print_settings (start_printing k)) = expr
  ∧ ∃ options,
      options !! "page-ranges" = Some expr
      ∧ submissions (do_print sp (start_printing k)).1
          = [(PRINTER_NAME, current_file k, "Print Job", options)].
Proof.
  intros Hsel Hall Hph Hconn.
  pose proof (page_ranges_option_custom _ _ Hsel) as Hopt.
  destruct Hsel as [Hvar Hentry].
  destruct (String.eqb_spec expr "all") as [? | _]; [contradiction |].
  destruct (String.eqb_spec expr PLACEHOLDER) as [? | _]; [contradiction |].
  simpl in Hopt. split.
  - rewrite start_printing_page_range, Hvar, Hentry.
    destruct (String.eqb_spec expr PLACEHOLDER); [contradiction | reflexivity].
  - eexists. split; [exact Hopt |].
    rewrite do_print_submissions. simpl. rewrite Hconn. reflexivity.
Qed.

(** The reversed range "3-2", with a spooler that accepts job 7 and then
    lists no active job. *)
Lemma custom_range_submitted_unchecked_witness :
  let k := set_option_vars "custom" "3-2" "portrait" "none" (@init unit true) in
  let sp := Spooler (λ _ _ _ _, Normal 7) [Normal ∅] in
  page_range (print_settings (start_printing k)) = "3-2"
  ∧ ∃ options,
      options !! "page-ranges" = Some "3-2"
      ∧ submissions (do_print sp (start_printing k)).1
          = [(PRINTER_NAME, None, "Print Job", options)].
Proof.
  intros k sp.
  apply (custom_range_submitted_unchecked "3-2" sp k).
  - split; reflexivity.
  - discriminate.
  - discriminate.
  - reflexivity.
Defined.

(** C2 as stated fails: "3-2" and "1-10" are not valid for a document of 5
    pages, yet the print run submits the job and ends on the success path. *)
Lemma parse_rejects_claim_fails :
  ¬ @parse_rejects_claim unit "3-2" 5 ∧ ¬ @parse_rejects_claim unit "1-10" 5.
Proof.
  split; intros Hclaim.
  - destruct Hclaim
      with (sp := Spooler (λ _ _ _ _, Normal 7) [Normal ∅])
           (k := set_option_vars "custom" "3-2" "portrait" "none" (@init unit true))
      as [_ Hnone].
    + intros [H | [H | [H | (rs & Hrs & Hok)]]]; try discriminate H.
      vm_compute in Hrs. injection Hrs as <-.
      apply Forall_cons in Hok. destruct Hok as [(_ & Hle & _) _].
      simpl in Hle. lia.
    + split; reflexivity.
    + rewrite do_print_submissions in Hnone. discriminate Hnone.
  - destruct Hclaim
      with (sp := Spooler (λ _ _ _ _, Normal 7) [Normal ∅])
           (k := set_option_vars "custom" "1-10" "portrait" "none" (@init unit true))
      as [_ Hnone].
    + intros [H | [H | [H | (rs & Hrs & Hok)]]]; try discriminate H.
      vm_compute in Hrs. injection Hrs as <-.
      apply Forall_cons in Hok. destruct Hok as [(_ & _ & Hhi) _].
      simpl in Hhi. lia.
    + split; reflexivity.
    + rewrite do_print_submissions in Hnone. discriminate Hnone.
Qed.

(** On "3-2" the run reaches the success screen without any error dialog. *)
Example reversed_range_prints :
  let k := set_option_vars "custom" "3-2" "portrait" "none" (@init unit true) in
  let sp := Spooler (λ _ _ _ _, Normal 7) [Normal ∅] in
  (do_print sp (start_printing k)).2 = Some (Normal tt)
  ∧ current_screen (print_session sp k).1 = Success
  ∧ (print_session sp k).2 = [].
Proof. repeat split. Qed.

(** ** Following a submitted job *)

Section Polling.

Context {image : Type}.
Implicit Types (k : kiosk image) (sp : spooler).
Implicit Types (answer : outcome (gmap Z (gmap string Z))).

Lemma monitor_scheduled job_id polls :
  scheduled (monitor job_id polls).1 = [].
Proof.
  induction polls as [| answer polls IH]; [reflexivity |].
  simpl. destruct answer as [jobs | e]; [| reflexivity].
  destruct (jobs !! job_id) as [attrs |]; [| reflexivity].
  destruct (attrs !! "job-state") as [job_state |]; [| reflexivity].
  destruct (job_state =? 9); [reflexivity |].
  destruct (job_state =? 8); [reflexivity |].
  destruct (monitor job_id polls) as [trace r]. exact IH.
Qed.

(** One more round: an answer that shows the job still printing sends the
    loop to the next answer. *)
Lemma monitor_still_printing job_id answer polls :
  still_printing job_id answer →
  monitor job_id (answer :: polls) =
  (Sleep 1 :: GetJobs :: (monitor job_id polls).1, (monitor job_id polls).2).
Proof.
  intros (code & (jobs & attrs & -> & Hjob & Hstate) & H9 & H8).
  simpl. rewrite Hjob, Hstate.
  destruct (Z.eqb_spec code 9); [contradiction |].
  destruct (Z.eqb_spec code 8); [contradiction |].
  destruct (monitor job_id polls); reflexivity.
Qed.

Lemma monitor_skips job_id before rest :
  Forall (still_printing job_id) before →
  monitor job_id (before ++ rest) =
  (poll_trace (length before) ++ (monitor job_id rest).1, (monitor job_id rest).2).
Proof.
  induction 1 as [| answer before Hanswer _ IH].
  - simpl. destruct (monitor job_id rest); reflexivity.
  - rewrite <- app_comm_cons, (monitor_still_printing _ _ _ Hanswer), IH.
    reflexivity.
Qed.

Lemma monitor_job_gone job_id answer polls :
  job_gone job_id answer →
  monitor job_id (answer :: polls) = ([Sleep 1; GetJobs], Some (Normal tt)).
Proof. intros (jobs & -> & Hjob). simpl. rewrite Hjob. reflexivity. Qed.

Lemma monitor_completed job_id answer polls :
  reports job_id 9 answer →
  monitor job_id (answer :: polls) = ([Sleep 1; GetJobs], Some (Normal tt)).
Proof.
  intros (jobs & attrs & -> & Hjob & Hstate). simpl.
  rewrite Hjob, Hstate. reflexivity.
Qed.


(** [do_print] once the spooler has accepted the job: what remains is the
    polling loop. *)
Lemma do_print_try_accepted sp k job_id :
  cups_conn k = true →
  printFile sp PRINTER_NAME (current_file k) "Print Job"
            (build_options (print_settings k)) = Normal job_id →
  scheduled (do_print_try sp k).1 =
    [StatusLabel "Sending to printer...";
     ProgressLabel "⏳ Communicating with HP LaserJet";
     StatusLabel "Printing...";
     ProgressLabel ("📄 Job ID: " +:+ pretty job_id)]
  ∧ (do_print_try sp k).2 = (monitor job_id (getJobs sp)).2.
Proof.
  intros Hconn Hjob. unfold do_print_try. rewrite Hconn, Hjob. simpl.
  pose proof (monitor_scheduled job_id (getJobs sp)) as Hm.
  destruct (monitor job_id (getJobs sp)) as [trace r]. simpl in *.
  unfold scheduled in *. simpl. rewrite Hm. split; reflexivity.
Qed.

Lemma do_print_resolution sp k :
  (do_print sp k).2 = (do_print_try sp k).2.
Proof.
  unfold do_print. destruct (do_print_try sp k) as [trace [[[] | e] |]]; reflexivity.
Qed.

Lemma do_print_scheduled sp k :
  scheduled (do_print sp k).1 =
  scheduled (do_print_try sp k).1 ++
  match (do_print_try sp k).2 with
  | None => []
  | Some (Normal _) => [ShowSuccess]
  | Some (Raised e) => [ShowErrorOfE "Print Error"; ShowWelcome]
  end.
Proof.
  unfold do_print. destruct (do_print_try sp k) as [trace [[[] | e] |]]; simpl;
    unfold scheduled; rewrite ?omap_app, ?app_nil_r; reflexivity.
Qed.

End Polling.

(** C5: once the spooler has accepted the job, if the answers to the polls
    show the job still printing until one of them no longer lists it, or
    lists it with status 9 (completed), then [do_print] leaves the loop on
    the success path: its last effect is to schedule the success screen, no
    error dialog is shown, and the Tk loop ends on the Success screen. *)
Theorem vanished_or_completed_job_succeeds {image : Type}
    (sp : spooler) (k : kiosk image) (job_id : Z)
    (before : list (outcome (gmap Z (gmap string Z))))
    (answer : outcome (gmap Z (gmap string Z)))
    (later : list (outcome (gmap Z (gmap string Z)))) :
  cups_conn k = true →
  printFile sp PRINTER_NAME (current_file k) "Print Job"
            (build_options (print_settings k)) = Normal job_id →
  getJobs sp = before ++ answer :: later →
  Forall (still_printing job_id) before →
  job_gone job_id answer ∨ reports job_id 9 answer →
  (do_print sp k).2 = Some (Normal tt)
  ∧ last (do_print sp k).1 = Some (After ShowSuccess)
  ∧ scheduled (do_print sp k).1 =
      [StatusLabel "Sending to printer...";
       ProgressLabel "⏳ Communicating with HP LaserJet";
       StatusLabel "Printing...";
       ProgressLabel ("📄 Job ID: " +:+ pretty job_id);
       ShowSuccess]
  ∧ tk_loop (scheduled (do_print sp k).1) (k, []) = (show_success k, []).
Proof.
  intros Hconn Hjob Hpolls Hbefore Hanswer.
  destruct (do_print_try_accepted sp k job_id Hconn Hjob) as [Hsched Hres].
  assert (Hmon : (monitor job_id (getJobs sp)).2 = Some (Normal tt)).
  { rewrite Hpolls, (monitor_skips _ _ _ Hbefore).
    destruct Hanswer as [Hgone | Hdone].
    - rewrite (monitor_job_gone _ _ _ Hgone). reflexivity.
    - rewrite (monitor_completed _ _ _ Hdone). reflexivity. }
  assert (Hsch : scheduled (do_print sp k).1 =
      [StatusLabel "Sending to printer...";
       ProgressLabel "⏳ Communicating with HP LaserJet";
       StatusLabel "Printing...";
       ProgressLabel ("📄 Job ID: " +:+ pretty job_id);
       ShowSuccess]).
  { rewrite do_print_scheduled, Hsched, Hres, Hmon. reflexivity. }
  split; [rewrite do_print_resolution, Hres; exact Hmon |].
  split; [| split; [exact Hsch | rewrite Hsch; reflexivity]].
  unfold do_print. rewrite (surjective_pairing (do_print_try sp k)), Hres, Hmon.
  simpl. apply last_snoc.
Qed.

(** A job that is printing (status 5) at the first poll and missing from
    the second. *)
Lemma vanished_or_completed_job_succeeds_witness :
  let k := start_printing (set_current_file (Some "/tmp/print_100_a.pdf") (@init unit true)) in
  let sp := Spooler (λ _ _ _ _, Normal 7)
                    [Normal {[7 := {["job-state" := 5]}]}; Normal ∅] in
  (do_print sp k).2 = Some (Normal tt)
  ∧ last (do_print sp k).1 = Some (After ShowSuccess)
  ∧ current_screen (tk_loop (scheduled (do_print sp k).1) (k, [])).1 = Success.
Proof.
  intros k sp.
  destruct (vanished_or_completed_job_succeeds sp k 7
              [Normal {[7 := {["job-state" := 5]}]}] (Normal ∅) [])
    as (Hres & Hlast & _ & Hloop).
  - reflexivity.
  - reflexivity.
  - reflexivity.
  - constructor; [| constructor].
    exists 5. split; [| lia].
    exists {[7 := {["job-state" := 5]}]}, {["job-state" := 5]}.
    repeat split; reflexivity.
  - left. exists ∅. split; reflexivity.
  - split; [exact Hres |]. split; [exact Hlast |]. rewrite Hloop. reflexivity.
Defined.



(** ** File intake *)

Section Intake.

Context {image : Type}.
Implicit Types (w : world image) (file : upload) (now : Q).

Lemma os_path_join_relative (a b : string) :
  String.prefix "/" b = false → b ≠ "" → os_path_join a b ≠ "".
Proof.
  intros Hrel Hb. unfold os_path_join. rewrite Hrel.
  destruct (_ || _); destruct a; simpl; try discriminate; exact Hb.
Qed.

Lemma stored_path_nonempty temp_dir now name :
  stored_path temp_dir now name ≠ "".
Proof.
  unfold stored_path. apply os_path_join_relative; [reflexivity | discriminate].
Qed.

(** *** When two stored paths coincide *)

Lemma free_of_tail c a s : free_of c (String a s) → free_of c s.
Proof. intros H s' r ->. apply (H (String a s') r). reflexivity. Qed.

Lemma free_of_head c a s : free_of c (String a s) → a ≠ c.
Proof. intros H ->. apply (H "" s). reflexivity. Qed.

Lemma free_of_cons c a s : a ≠ c → free_of c s → free_of c (String a s).
Proof.
  intros Ha Hs [| b s'] r; simpl; intros [= Hab Hrest].
  - congruence.
  - exact (Hs s' r Hrest).
Qed.

Lemma free_of_empty c : free_of c "".
Proof. intros [| b s'] r; discriminate. Qed.

(** Two texts split at their first separator agree part by part. *)
Lemma append_sep_inj c p1 p2 n1 n2 :
  free_of c p1 → free_of c p2 →
  p1 +:+ String c n1 = p2 +:+ String c n2 → p1 = p2 ∧ n1 = n2.
Proof.
  revert p2. induction p1 as [| a p1 IH]; intros [| b p2] H1 H2; simpl; intros Heq.
  - injection Heq as ->. split; reflexivity.
  - injection Heq as <- _. destruct (free_of_head _ _ _ H2 eq_refl).
  - injection Heq as -> _. destruct (free_of_head _ _ _ H1 eq_refl).
  - injection Heq as -> Heq.
    destruct (IH p2 (free_of_tail _ _ _ H1) (free_of_tail _ _ _ H2) Heq) as [-> ->].
    split; reflexivity.
Qed.

(** The decimal text of a number holds no underscore. *)
Lemma pretty_N_go_free_of_underscore (x : N) (s : string) :
  free_of "_" s → free_of "_" (pretty_N_go x s).
Proof.
  revert s. induction (N.lt_wf_0 x) as [x _ IH]; intros s Hs.
  destruct (N.eq_0_gt_0_cases x) as [-> | Hpos]; [exact Hs |].
  rewrite pretty_N_go_step by exact Hpos.
  apply IH; [apply N.div_lt; [exact Hpos | reflexivity] |].
  apply free_of_cons; [| exact Hs].
  unfold pretty_N_char. repeat case_match; discriminate.
Qed.

Lemma pretty_Z_free_of_underscore (z : Z) : free_of "_" (pretty z).
Proof.
  assert (HN : ∀ n : N, free_of "_" (pretty n)).
  { intros n. unfold pretty, pretty_N. case_decide.
    - apply free_of_cons; [discriminate | apply free_of_empty].
    - apply pretty_N_go_free_of_underscore, free_of_empty. }
  destruct z as [| p | p]; unfold pretty, pretty_Z.
  - apply free_of_cons; [discriminate | apply free_of_empty].
  - apply HN.
  - apply free_of_cons; [discriminate | apply HN].
Qed.

Lemma append_inj_r (a b1 b2 : string) : a +:+ b1 = a +:+ b2 → b1 = b2.
Proof. induction a as [| c a IH]; simpl; [auto |]. intros [= H]. auto. Qed.

Lemma os_path_join_inj (a b1 b2 : string) :
  String.prefix "/" b1 = false → String.prefix "/" b2 = false →
  os_path_join a b1 = os_path_join a b2 → b1 = b2.
Proof.
  intros H1 H2. unfold os_path_join. rewrite H1, H2.
  destruct (_ || _); intros Heq.
  - exact (append_inj_r _ _ _ Heq).
  - apply append_inj_r in Heq. simpl in Heq. injection Heq. auto.
Qed.

(** Two stored paths in one directory coincide exactly when the whole
    seconds of the two times and the two filenames do. *)
Lemma stored_path_inj temp_dir now1 now2 name1 name2 :
  stored_path temp_dir now1 name1 = stored_path temp_dir now2 name2 ↔
  int_of_time now1 = int_of_time now2 ∧ name1 = name2.
Proof.
  split.
  - unfold stored_path. intros Heq.
    apply os_path_join_inj in Heq; [| reflexivity | reflexivity].
    apply (append_inj_r "print_") in Heq.
    apply append_sep_inj in Heq; try apply pretty_Z_free_of_underscore.
    destruct Heq as [Hp Hn]. split; [| exact Hn].
    exact (pretty_Z_inj _ _ Hp).
  - intros [Ht ->]. unfold stored_path. rewrite Ht. reflexivity.
Qed.

(** A request with a named file and no storage fault is stored under
    [stored_path] and becomes the active document. *)
Lemma receive_file_stores temp_dir now file w :
  filename file ≠ "" →
  receive_file temp_dir now None (request_with file) w =
  (Response 200 true None (Some "File received") (Some (filename file)),
   World (set_current_file (Some (stored_path temp_dir now (filename file))) (app w))
         (<[stored_path temp_dir now (filename file) := content file]> (files w))
         (pending w ++ [ShowFileConfirmation (filename file)
                          (Z.of_nat (length (content file)))])).
Proof.
  intros Hname. unfold receive_file, request_with.
  rewrite lookup_singleton_eq.
  destruct (String.eqb_spec (filename file) ""); [contradiction | reflexivity].
Qed.

(** Intake never removes a file from the temporary directory. *)
Lemma receive_file_keeps_files temp_dir now fault request_files w path :
  is_Some (files w !! path) →
  is_Some (files (receive_file temp_dir now fault request_files w).2 !! path).
Proof.
  intros Hpath. unfold receive_file.
  destruct (request_files !! "file") as [file |]; [| exact Hpath].
  destruct (String.eqb (filename file) ""); [exact Hpath |].
  destruct fault as [[[[bytes |] | |] e] |]; simpl; try exact Hpath;
    (destruct (decide (stored_path temp_dir now (filename file) = path)) as [-> | Hne];
     [rewrite lookup_insert_eq; eauto
     | rewrite lookup_insert_ne by exact Hne; exact Hpath]).
Qed.

(** [cleanup] removes the active document's file and nothing else. *)
Lemma cleanup_files w :
  files (cleanup w) =
  match current_file (app w) with
  | Some path => if String.eqb path "" then files w else delete path (files w)
  | None => files w
  end.
Proof.
  unfold cleanup. destruct (current_file (app w)) as [path |]; [| reflexivity].
  simpl. destruct (String.eqb path ""); [reflexivity |]. simpl.
  case_bool_decide as Hexists; [reflexivity |]. simpl.
  symmetry. apply delete_id.
  destruct (files w !! path) eqn:E; [| reflexivity].
  exfalso. apply Hexists. eauto.
Qed.

End Intake.

(** C4: a request without a part named [file], or whose part has an empty
    filename, is answered with status 400 and [success = false]; the world is
    returned as it was: no file stored, the active document unchanged, and no
    callback added to the Tk queue. *)
Theorem receive_file_rejects_missing_file {image : Type}
    (temp_dir : string) (now : Q) (fault : option (raising * string))
    (request_files : gmap string upload) (w : world image) :
  request_files !! "file" = None
  ∨ (∃ file, request_files !! "file" = Some file ∧ filename file = "") →
  status (receive_file temp_dir now fault request_files w).1 = 400
  ∧ ¬ (200 ≤ status (receive_file temp_dir now fault request_files w).1 < 300)
  ∧ success (receive_file temp_dir now fault request_files w).1 = false
  ∧ (receive_file temp_dir now fault request_files w).2 = w
  ∧ files (receive_file temp_dir now fault request_files w).2 = files w
  ∧ current_file (app (receive_file temp_dir now fault request_files w).2)
      = current_file (app w)
  ∧ pending (receive_file temp_dir now fault request_files w).2 = pending w.
Proof.
  intros [Hnone | (file & Hfile & Hname)]; unfold receive_file.
  - rewrite Hnone. simpl. repeat split; lia.
  - rewrite Hfile, Hname. simpl. repeat split; lia.
Qed.

Lemma receive_file_rejects_missing_file_witness :
  let w := World (@init unit true) ∅ [] in
  receive_file "/tmp" (1002 # 10) None ∅ w
    = (Response 400 false (Some "No file provided") None None, w)
  ∧ receive_file "/tmp" (1002 # 10) None {["file" := Upload "" []]} w
    = (Response 400 false (Some "Empty filename") None None, w).
Proof.
  intros w.
  destruct (receive_file_rejects_missing_file "/tmp" (1002 # 10) None ∅ w)
    as (_ & _ & _ & Hw & _); [left; reflexivity |].
  destruct (receive_file_rejects_missing_file "/tmp" (1002 # 10) None
              {["file" := Upload "" []]} w)
    as (_ & _ & _ & Hw' & _).
  { right. exists (Upload "" []). split; reflexivity. }
  split; reflexivity.
Defined.

(** C3 fails on the code: the stored path holds the time truncated to whole
    seconds, so two uploads with the same filename received within one second
    get the same path, and the second upload overwrites the first. *)
Theorem same_second_uploads_collide {image : Type}
    (temp_dir : string) (now1 now2 : Q) (first second : upload) (w : world image) :
  int_of_time now1 = int_of_time now2 →
  filename first = filename second → filename first ≠ "" →
  stored_path temp_dir now1 (filename first) = stored_path temp_dir now2 (filename second)
  ∧ current_file (app (after_two_uploads temp_dir now1 now2 first second w))
      = Some (stored_path temp_dir now1 (filename first))
  ∧ files (after_two_uploads temp_dir now1 now2 first second w)
      !! stored_path temp_dir now1 (filename first) = Some (content second).
Proof.
  intros Htime Hname Hnonempty.
  assert (Hpath : stored_path temp_dir now1 (filename first)
                  = stored_path temp_dir now2 (filename second)).
  { unfold stored_path. rewrite Htime, Hname. reflexivity. }
  split; [exact Hpath |].
  unfold after_two_uploads.
  rewrite (receive_file_stores _ _ first) by exact Hnonempty.
  rewrite (receive_file_stores _ _ second) by congruence.
  simpl. rewrite <- Hpath. split; [reflexivity |].
  apply lookup_insert_eq.
Qed.

(** Two uploads of "a.pdf" at 100.2 s and 100.7 s. *)
Lemma same_second_uploads_collide_witness :
  let first := Upload "a.pdf" [Byte.x0a] in
  let second := Upload "a.pdf" [Byte.x0b] in
  let w := after_two_uploads "/tmp" (1002 # 10) (1007 # 10) first second
             (World (@init unit true) ∅ []) in
  stored_path "/tmp" (1002 # 10) "a.pdf" = "/tmp/print_100_a.pdf"
  ∧ stored_path "/tmp" (1007 # 10) "a.pdf" = "/tmp/print_100_a.pdf"
  ∧ files w !! "/tmp/print_100_a.pdf" = Some [Byte.x0b].
Proof.
  intros first second w.
  destruct (same_second_uploads_collide "/tmp" (1002 # 10) (1007 # 10) first second
              (World (@init unit true) ∅ []))
    as (_ & _ & Hfile); [reflexivity | reflexivity | discriminate |].
  split; [reflexivity |]. split; [reflexivity |]. exact Hfile.
Defined.

(** C8, as the code has it: a stored file is deleted by [cleanup] alone, and
    only when it is the active document.  When a second upload, stored under
    another path, supersedes a first, the first upload's file is still in the
    temporary directory, and it is still there after [cleanup], which removes
    the second upload's file and nothing else. *)
Theorem superseded_file_kept {image : Type}
    (temp_dir : string) (now1 now2 : Q) (first second : upload) (w : world image) :
  filename first ≠ "" → filename second ≠ "" →
  stored_path temp_dir now1 (filename first) ≠ stored_path temp_dir now2 (filename second) →
  files (after_two_uploads temp_dir now1 now2 first second w)
    !! stored_path temp_dir now1 (filename first) = Some (content first)
  ∧ current_file (app (after_two_uploads temp_dir now1 now2 first second w))
      = Some (stored_path temp_dir now2 (filename second))
  ∧ files (cleanup (after_two_uploads temp_dir now1 now2 first second w))
      !! stored_path temp_dir now1 (filename first) = Some (content first)
  ∧ files (cleanup (after_two_uploads temp_dir now1 now2 first second w))
      !! stored_path temp_dir now2 (filename second) = None
  ∧ ∀ path, path ≠ stored_path temp_dir now2 (filename second) →
      files (cleanup (after_two_uploads temp_dir now1 now2 first second w)) !! path
      = files (after_two_uploads temp_dir now1 now2 first second w) !! path.
Proof.
  intros Hfirst Hsecond Hpaths.
  rewrite cleanup_files. unfold after_two_uploads.
  rewrite (receive_file_stores _ _ first) by exact Hfirst.
  rewrite (receive_file_stores _ _ second) by exact Hsecond.
  simpl.
  destruct (String.eqb_spec (stored_path temp_dir now2 (filename second)) "")
    as [Hempty | _]; [destruct (stored_path_nonempty _ _ _ Hempty) |].
  assert (Hkept : (<[stored_path temp_dir now2 (filename second) := content second]>
                     (<[stored_path temp_dir now1 (filename first) := content first]>
                        (files w)))
                  !! stored_path temp_dir now1 (filename first) = Some (content first)).
  { rewrite lookup_insert_ne by congruence. apply lookup_insert_eq. }
  split; [exact Hkept |]. split; [reflexivity |]. split; [| split].
  - rewrite lookup_delete_ne by congruence. exact Hkept.
  - apply lookup_delete_eq.
  - intros path Hpath. apply lookup_delete_ne. congruence.
Qed.

(** "a.pdf" received at 100.2 s and "b.pdf" at 101.5 s. *)
Lemma superseded_file_kept_witness :
  let first := Upload "a.pdf" [Byte.x0a] in
  let second := Upload "b.pdf" [Byte.x0b] in
  let w := after_two_uploads "/tmp" (1002 # 10) (1015 # 10) first second
             (World (@init unit true) ∅ []) in
  files w !! "/tmp/print_100_a.pdf" = Some [Byte.x0a]
  ∧ files (cleanup w) !! "/tmp/print_100_a.pdf" = Some [Byte.x0a]
  ∧ files (cleanup w) !! "/tmp/print_101_b.pdf" = None.
Proof.
  intros first second w.
  destruct (superseded_file_kept "/tmp" (1002 # 10) (1015 # 10) first second
              (World (@init unit true) ∅ []))
    as (H1 & _ & H2 & H3 & _); [discriminate | discriminate | discriminate |].
  split; [exact H1 |]. split; [exact H2 | exact H3].
Defined.

(** C8 as stated fails: after "b.pdf" supersedes "a.pdf", the file stored
    for "a.pdf" still exists. *)
Lemma superseded_deleted_claim_fails :
  ¬ superseded_deleted_claim "/tmp" (1002 # 10) (1015 # 10)
      (Upload "a.pdf" [Byte.x0a]) (Upload "b.pdf" [Byte.x0b])
      (World (@init unit true) ∅ []).
Proof.
  intros Hclaim. unfold superseded_deleted_claim in Hclaim.
  specialize (Hclaim ltac:(discriminate) ltac:(discriminate)).
  vm_compute in Hclaim. discriminate Hclaim.
Qed.

(** ** The preview page index *)

Section PageIndex.

Context {image : Type}.
Implicit Types (k : kiosk image) (ev : event image).

Lemma init_page_index_ok conn : page_index_ok (@init image conn).
Proof. split; simpl; lia. Qed.

Lemma show_preview_page_index_ok disk convert k :
  page_index_ok k → page_index_ok (show_preview disk convert k).1.
Proof.
  intros Hk. unfold show_preview.
  destruct (_ || _); [exact Hk |].
  destruct convert as [images | e]; [| exact Hk].
  split; simpl; lia.
Qed.

Lemma prev_page_page_index_ok k : page_index_ok k → page_index_ok (prev_page k).
Proof.
  intros [Hlo Hhi]. unfold prev_page.
  destruct (Z.ltb_spec 0 (current_page k)); [| split; assumption].
  split; simpl; lia.
Qed.

Lemma next_page_page_index_ok k : page_index_ok k → page_index_ok (next_page k).
Proof.
  intros [Hlo Hhi]. unfold next_page.
  destruct (Z.ltb_spec (current_page k) (Z.of_nat (length (preview_images k)) - 1));
    [| split; assumption].
  split; simpl; lia.
Qed.

Lemma step_page_index_ok k ev : page_index_ok k → page_index_ok (step k ev).
Proof.
  intros Hk. destruct ev as [path | disk convert | | | | cb]; simpl.
  - exact Hk.
  - apply show_preview_page_index_ok, Hk.
  - apply prev_page_page_index_ok, Hk.
  - apply next_page_page_index_ok, Hk.
  - exact Hk.
  - destruct cb; exact Hk.
Qed.

Lemma run_events_page_index_ok k evs :
  page_index_ok k → page_index_ok (run_events k evs).
Proof.
  revert k. induction evs as [| ev evs IH]; intros k Hk; [exact Hk |].
  apply IH, step_page_index_ok, Hk.
Qed.

(** Within the bound, [update_preview] finds the page it is to draw. *)
Lemma update_preview_draws k :
  page_index_ok k → preview_images k ≠ [] →
  ∃ img, update_preview k = Normal (Some img)
         ∧ preview_images k !! Z.to_nat (current_page k) = Some img.
Proof.
  intros [Hlo Hhi] Hne. unfold update_preview.
  assert (Hlen : 1 ≤ Z.of_nat (length (preview_images k))).
  { destruct (preview_images k); [contradiction | simpl; lia]. }
  specialize (Hhi Hlen).
  destruct (Z.eqb_spec (Z.of_nat (length (preview_images k))) 0); [lia |].
  destruct (Z.ltb_spec (current_page k) 0); [lia |].
  destruct (Z.leb_spec 0 (current_page k)); [| lia].
  destruct (Z.ltb_spec (current_page k) (Z.of_nat (length (preview_images k)))); [| lia].
  simpl.
  destruct (lookup_lt_is_Some_2 (preview_images k) (Z.to_nat (current_page k)))
    as [img Himg]; [lia |].
  exists img. rewrite Himg. split; reflexivity.
Qed.

End PageIndex.

(** C9: in every state the session reaches from its initial state, by
    uploads, previews (successful or not), previous-page and next-page
    presses, Print, and the callbacks of the Tk queue, the page index is at
    least 0, and at most [page_count - 1] whenever the page count is at
    least 1; a successful preview sets it to 0, and previous-page and
    next-page keep any index that is within these bounds within them. *)
Theorem page_index_in_bounds {image : Type} (conn : bool) (evs : list (event image)) :
  (0 ≤ current_page (run_events (init conn) evs)
   ∧ (1 ≤ Z.of_nat (length (preview_images (run_events (init conn) evs))) →
      current_page (run_events (init conn) evs)
        ≤ Z.of_nat (length (preview_images (run_events (init conn) evs))) - 1))
  ∧ (∀ disk images (k : kiosk image),
       truthy (current_file k) = true →
       is_Some (current_file k ≫= λ path, disk !! path) →
       current_page (show_preview disk (Normal images) k).1 = 0
       ∧ preview_images (show_preview disk (Normal images) k).1 = images)
  ∧ (∀ k : kiosk image, page_index_ok k →
       page_index_ok (prev_page k) ∧ page_index_ok (next_page k)).
Proof.
  split; [| split].
  - apply (run_events_page_index_ok (init conn) evs), init_page_index_ok.
  - intros disk images k Hfile Hexists. unfold show_preview.
    change (current_file (set_screen Preview k)) with (current_file k).
    rewrite Hfile. rewrite bool_decide_eq_true_2 by exact Hexists.
    split; reflexivity.
  - intros k Hk. split.
    + apply prev_page_page_index_ok, Hk.
    + apply next_page_page_index_ok, Hk.
Qed.

(** A document of two pages: next, next, next, previous, previous, previous
    leaves the index at 0, having stopped at 1 on the way. *)
Lemma page_index_in_bounds_witness :
  let disk : gmap string (list Byte.byte) := {["/tmp/print_100_a.pdf" := [Byte.x0a]]} in
  let open := [EvUpload "/tmp/print_100_a.pdf"; EvShowPreview disk (Normal [tt; tt])] in
  current_page (run_events (@init unit true) (open ++ [EvNextPage; EvNextPage; EvNextPage])) = 1
  ∧ current_page (run_events (@init unit true)
                    (open ++ [EvNextPage; EvPrevPage; EvPrevPage; EvPrevPage])) = 0
  ∧ page_index_ok (run_events (@init unit true) (open ++ [EvNextPage; EvNextPage; EvNextPage])).
Proof.
  intros disk open.
  split; [reflexivity |]. split; [reflexivity |].
  exact (proj1 (page_index_in_bounds true (open ++ [EvNextPage; EvNextPage; EvNextPage]))).
Defined.

(** ** The print run as a whole *)

Section PrintRun.

Context {image : Type}.
Implicit Types (k : kiosk image) (sp : spooler) (ev : event image).
Implicit Types (answer : outcome (gmap Z (gmap string Z))).

(** The [try] body schedules label updates only, which leave the session
    state and the dialogs as they are. *)
Lemma tk_loop_do_print_try sp k (u : kiosk image * list (string * string)) :
  tk_loop (scheduled (do_print_try sp k).1) u = u.
Proof.
  unfold do_print_try. destruct (cups_conn k); simpl; [| reflexivity].
  destruct (printFile sp _ _ _ _) as [job_id | e]; [| reflexivity].
  pose proof (monitor_scheduled job_id (getJobs sp)) as Hm.
  destruct (monitor job_id (getJobs sp)) as [trace r]. simpl in *.
  unfold scheduled in *. simpl. rewrite Hm. reflexivity.
Qed.



Lemma monitor_GetJobs_count job_id polls :
  Forall (still_printing job_id) polls →
  monitor job_id polls = (poll_trace (length polls), None).
Proof.
  intros Hall. rewrite <- (app_nil_r polls) at 1.
  rewrite (monitor_skips _ _ _ Hall). simpl. rewrite app_nil_r. reflexivity.
Qed.

End PrintRun.






(** The polling loop has no time limit: as long as every answer shows the
    job with a status other than 9 and 8, however many answers there are,
    [do_print] goes on polling, one [getJobs] after each sleep of one
    second, and schedules neither the success screen nor an error. *)
Theorem polling_never_gives_up {image : Type}
    (sp : spooler) (k : kiosk image) (job_id : Z) :
  cups_conn k = true →
  printFile sp PRINTER_NAME (current_file k) "Print Job"
            (build_options (print_settings k)) = Normal job_id →
  Forall (still_printing job_id) (getJobs sp) →
  (do_print sp k).2 = None
  ∧ (do_print sp k).1 =
      [After (StatusLabel "Sending to printer...");
       After (ProgressLabel "⏳ Communicating with HP LaserJet");
       Sleep 1;
       PrintFile PRINTER_NAME (current_file k) "Print Job"
                 (build_options (print_settings k));
       After (StatusLabel "Printing...");
       After (ProgressLabel ("📄 Job ID: " +:+ pretty job_id))]
      ++ poll_trace (length (getJobs sp))
  ∧ tk_loop (scheduled (do_print sp k).1) (k, []) = (k, []).
Proof.
  intros Hconn Hjob Hall.
  assert (Hrun : do_print sp k =
    ([After (StatusLabel "Sending to printer...");
      After (ProgressLabel "⏳ Communicating with HP LaserJet");
      Sleep 1;
      PrintFile PRINTER_NAME (current_file k) "Print Job"
                (build_options (print_settings k));
      After (StatusLabel "Printing...");
      After (ProgressLabel ("📄 Job ID: " +:+ pretty job_id))]
     ++ poll_trace (length (getJobs sp)), None)).
  { unfold do_print, do_print_try.
    rewrite Hconn, Hjob, (monitor_GetJobs_count _ _ Hall). reflexivity. }
  split; [rewrite Hrun; reflexivity |]. split; [rewrite Hrun; reflexivity |].
  pose proof (tk_loop_do_print_try sp k (k, [])) as Hlabels.
  pose proof (do_print_scheduled sp k) as Hs.
  rewrite Hs. unfold tk_loop. rewrite foldl_app.
  fold (tk_loop (scheduled (do_print_try sp k).1) (k, [])).
  rewrite Hlabels.
  replace (do_print_try sp k).2 with (@None (outcome unit)); [reflexivity |].
  unfold do_print_try. rewrite Hconn, Hjob, (monitor_GetJobs_count _ _ Hall).
  reflexivity.
Qed.

(** Three answers in a row that show job 7 being processed (status 5). *)
Lemma polling_never_gives_up_witness :
  let k := start_printing (set_current_file (Some "/tmp/print_100_a.pdf") (@init unit true)) in
  let busy : outcome (gmap Z (gmap string Z)) := Normal {[7 := {["job-state" := 5]}]} in
  let sp := Spooler (λ _ _ _ _, Normal 7) [busy; busy; busy] in
  (do_print sp k).2 = None
  ∧ current_screen (tk_loop (scheduled (do_print sp k).1) (k, [])).1 = Printing.
Proof.
  intros k busy sp.
  destruct (polling_never_gives_up sp k 7) as (Hres & _ & Hloop).
  - reflexivity.
  - reflexivity.
  - assert (Hbusy : still_printing 7 busy).
    { exists 5. split; [| lia].
      exists {[7 := {["job-state" := 5]}]}, {["job-state" := 5]}.
      repeat split; reflexivity. }
    repeat constructor; exact Hbusy.
  - split; [exact Hres | rewrite Hloop; reflexivity].
Defined.



(** ** Stored paths and the clock *)

Lemma int_of_time_floor (now : Q) : (0 <= now)%Q → int_of_time now = Qfloor now.
Proof.
  destruct now as [n d]. unfold Qle, int_of_time, Qfloor. simpl. intros Hn.
  apply Z.quot_div_nonneg; lia.
Qed.

Lemma int_of_time_apart (now1 now2 : Q) :
  (0 <= now1)%Q → (now1 + 1 <= now2)%Q → int_of_time now1 < int_of_time now2.
Proof.
  intros H0 Hapart.
  assert (H2 : (0 <= now2)%Q).
  { apply Qle_trans with (now1 + 1)%Q; [| exact Hapart].
    apply Qle_trans with (now1 + 0)%Q; [rewrite Qplus_0_r; exact H0 |].
    apply Qplus_le_r. discriminate. }
  rewrite !int_of_time_floor by assumption.
  assert (Hle : (inject_Z (Qfloor now1 + 1) <= now2)%Q).
  { rewrite inject_Z_plus.
    apply Qle_trans with (now1 + 1)%Q; [| exact Hapart].
    apply Qplus_le_l. apply Qfloor_le. }
  apply Qfloor_resp_le in Hle. rewrite Qfloor_Z in Hle. lia.
Qed.

(** Two uploads into the same directory get different stored paths as soon
    as their filenames differ, or as soon as they are received at least one
    second apart. *)
Theorem stored_paths_distinct (temp_dir : string) (now1 now2 : Q) (name1 name2 : string) :
  name1 ≠ name2 ∨ ((0 <= now1)%Q ∧ (now1 + 1 <= now2)%Q) →
  stored_path temp_dir now1 name1 ≠ stored_path temp_dir now2 name2.
Proof.
  intros Hdiff Heq. apply stored_path_inj in Heq. destruct Heq as [Htime Hname].
  destruct Hdiff as [Hne | [H0 Hapart]]; [contradiction |].
  pose proof (int_of_time_apart now1 now2 H0 Hapart). lia.
Qed.

(** "a.pdf" at 100.2 s and again at 101.2 s. *)
Lemma stored_paths_distinct_witness :
  stored_path "/tmp" (1002 # 10) "a.pdf" ≠ stored_path "/tmp" (1012 # 10) "a.pdf".
Proof.
  apply stored_paths_distinct. right. split.
  - unfold Qle. simpl. lia.
  - unfold Qle. simpl. lia.
Defined.

(** ** Intake, preview and shutdown together *)

(** What [receive_file] answers and what it leaves behind.  It answers
    success exactly with status 200, and then, nothing having raised, the
    upload is stored, it is the active document and one confirmation
    callback is queued; without success no callback is queued, and a 400
    changes nothing at all.  Whatever the answer, no file other than the one
    at the stored path of the upload is touched, nothing of the kiosk but
    [current_file] changes, and [current_file] changes only to the stored
    path, holding all the bytes of the upload.  A 500 can thus leave the
    stored file, or part of it, and even the new active document behind. *)
Theorem receive_file_answer_and_effects {image : Type}
    (temp_dir : string) (now : Q) (fault : option (raising * string))
    (request_files : gmap string upload) (w : world image) :
  (status (receive_file temp_dir now fault request_files w).1 = 400 →
   (receive_file temp_dir now fault request_files w).2 = w)
  ∧ (success (receive_file temp_dir now fault request_files w).1 = true
     ↔ status (receive_file temp_dir now fault request_files w).1 = 200)
  ∧ (success (receive_file temp_dir now fault request_files w).1 = true →
     fault = None
     ∧ ∃ file,
         request_files !! "file" = Some file
         ∧ receive_file temp_dir now fault request_files w
           = (Response 200 true None (Some "File received") (Some (filename file)),
              World (set_current_file (Some (stored_path temp_dir now (filename file)))
                                      (app w))
                    (<[stored_path temp_dir now (filename file) := content file]> (files w))
                    (pending w ++ [ShowFileConfirmation (filename file)
                                     (Z.of_nat (length (content file)))])))
  ∧ (success (receive_file temp_dir now fault request_files w).1 = false →
     pending (receive_file temp_dir now fault request_files w).2 = pending w)
  ∧ (∀ path,
       files (receive_file temp_dir now fault request_files w).2 !! path
         ≠ files w !! path →
       ∃ file, request_files !! "file" = Some file
               ∧ path = stored_path temp_dir now (filename file))
  ∧ (current_file (app (receive_file temp_dir now fault request_files w).2)
       ≠ current_file (app w) →
     ∃ file,
       request_files !! "file" = Some file
       ∧ current_file (app (receive_file temp_dir now fault request_files w).2)
         = Some (stored_path temp_dir now (filename file))
       ∧ files (receive_file temp_dir now fault request_files w).2
           !! stored_path temp_dir now (filename file) = Some (content file))
  ∧ set_current_file
      (current_file (app (receive_file temp_dir now fault request_files w).2)) (app w)
    = app (receive_file temp_dir now fault request_files w).2.
Proof.
  assert (Heta : set_current_file (current_file (app w)) (app w) = app w)
    by (destruct (app w); reflexivity).
  assert (Hstored : ∀ (file : upload) (bytes : list Byte.byte) (path : string),
            <[stored_path temp_dir now (filename file) := bytes]> (files w) !! path
              ≠ files w !! path →
            path = stored_path temp_dir now (filename file)).
  { intros file bytes path Hdiff.
    destruct (decide (stored_path temp_dir now (filename file) = path)) as [<- | Hne];
      [reflexivity |].
    rewrite lookup_insert_ne in Hdiff by exact Hne. contradiction. }
  unfold receive_file.
  destruct (request_files !! "file") as [file |] eqn:Hfile.
  2:{ simpl. repeat split; try discriminate; try reflexivity; try exact Heta;
        intros; first [discriminate | contradiction | lia]. }
  destruct (String.eqb_spec (filename file) "") as [Hname | Hname].
  { simpl. repeat split; try discriminate; try reflexivity; try exact Heta;
      intros; first [discriminate | contradiction | lia]. }
  destruct fault as [[[[bytes |] | |] e] |]; simpl.
  - repeat split; try discriminate; try reflexivity; try exact Heta;
      intros; first [discriminate | contradiction | lia | idtac].
    exists file. split; [reflexivity | eapply Hstored; eassumption].
  - repeat split; try discriminate; try reflexivity; try exact Heta;
      intros; first [discriminate | contradiction | lia].
  - repeat split; try discriminate; try reflexivity; try exact Heta;
      intros; first [discriminate | contradiction | lia | idtac].
    exists file. split; [reflexivity | eapply Hstored; eassumption].
  - repeat split; try discriminate; try reflexivity;
      intros; first [discriminate | lia | idtac].
    + exists file. split; [reflexivity | eapply Hstored; eassumption].
    + exists file. split; [reflexivity |]. split; [reflexivity | apply lookup_insert_eq].
  - repeat split; try discriminate; try reflexivity;
      intros; first [discriminate | lia | idtac].
    + exists file. split; reflexivity.
    + exists file. split; [reflexivity | eapply Hstored; eassumption].
    + exists file. split; [reflexivity |]. split; [reflexivity | apply lookup_insert_eq].
Qed.

(** An upload whose file is stored but whose callback cannot be scheduled:
    the answer is 500, and the file and the new active document stay. *)
Lemma receive_file_answer_and_effects_witness :
  let w := World (@init unit true) ∅ [] in
  let r := receive_file "/tmp" (1002 # 10)
             (Some (AtAfter, "main thread is not in main loop"))
             (request_with (Upload "a.pdf" [Byte.x0a])) w in
  status r.1 = 500
  ∧ pending r.2 = []
  ∧ current_file (app r.2) = Some "/tmp/print_100_a.pdf"
  ∧ files r.2 !! "/tmp/print_100_a.pdf" = Some [Byte.x0a].
Proof.
  intros w r.
  destruct (receive_file_answer_and_effects "/tmp" (1002 # 10)
              (Some (AtAfter, "main thread is not in main loop"))
              (request_with (Upload "a.pdf" [Byte.x0a])) w)
    as (_ & _ & _ & Hqueue & _ & Hactive & _).
  split; [reflexivity |]. split; [apply Hqueue; reflexivity |].
  destruct Hactive as (file & Hfile & Hcur & Hstored); [discriminate |].
  assert (Hf : file = Upload "a.pdf" [Byte.x0a]) by (vm_compute in Hfile; congruence).
  subst file. split; [exact Hcur | exact Hstored].
Defined.

(** A file that has just been received can be previewed: the Tk queue ends
    on the Confirmation screen, and [show_preview] does not answer "File not
    found".  If the renderer returns pages, the Preview screen shows the
    first of them; if it raises [e], the dialog is "Could not preview file:
    e" and the session is back on Welcome. *)
Theorem uploaded_file_is_previewable {image : Type}
    (temp_dir : string) (now : Q) (file : upload) (w : world image)
    (images : list image) (e : string) :
  filename file ≠ "" →
  current_screen
    (tk_loop (pending (receive_file temp_dir now None (request_with file) w).2)
             (app (receive_file temp_dir now None (request_with file) w).2, [])).1
    = Confirmation
  ∧ (preview_in (Normal images)
       (receive_file temp_dir now None (request_with file) w).2).2 = []
  ∧ current_screen (preview_in (Normal images)
       (receive_file temp_dir now None (request_with file) w).2).1 = Preview
  ∧ preview_images (preview_in (Normal images)
       (receive_file temp_dir now None (request_with file) w).2).1 = images
  ∧ current_page (preview_in (Normal images)
       (receive_file temp_dir now None (request_with file) w).2).1 = 0
  ∧ preview_in (Raised e) (receive_file temp_dir now None (request_with file) w).2
    = (show_welcome (app (receive_file temp_dir now None (request_with file) w).2),
       [("Error", "Could not preview file: " +:+ e)]).
Proof.
  intros Hname. rewrite (receive_file_stores _ _ file) by exact Hname.
  split.
  - simpl. unfold tk_loop. rewrite foldl_app. reflexivity.
  - assert (Hcheck : ∀ convert,
      preview_in convert
        (World (set_current_file (Some (stored_path temp_dir now (filename file))) (app w))
               (<[stored_path temp_dir now (filename file) := content file]> (files w))
               (pending w ++ [ShowFileConfirmation (filename file)
                                (Z.of_nat (length (content file)))]))
      = match convert with
        | Raised msg =>
            (show_welcome (set_current_file
               (Some (stored_path temp_dir now (filename file))) (app w)),
             [("Error", "Could not preview file: " +:+ msg)])
        | Normal pages =>
            (set_option_vars "all" PLACEHOLDER "portrait" "none"
               (set_current_page 0 (set_preview_images pages
                  (set_screen Preview (set_current_file
                     (Some (stored_path temp_dir now (filename file))) (app w))))), [])
        end).
    { intros convert. unfold preview_in, show_preview. simpl.
      destruct (String.eqb_spec (stored_path temp_dir now (filename file)) "")
        as [Hempty | _]; [destruct (stored_path_nonempty _ _ _ Hempty) |].
      rewrite lookup_insert_eq. simpl.
      destruct convert; reflexivity. }
    rewrite !Hcheck. repeat split.
Qed.

Lemma uploaded_file_is_previewable_witness :
  let w := (receive_file "/tmp" (1002 # 10) None (request_with (Upload "a.pdf" [Byte.x0a]))
              (World (@init unit true) ∅ [])).2 in
  current_screen (tk_loop (pending w) (app w, [])).1 = Confirmation
  ∧ current_screen (preview_in (Normal [tt; tt]) w).1 = Preview
  ∧ (preview_in (Raised "Unable to get page count") w).2
    = [("Error", "Could not preview file: Unable to get page count")].
Proof.
  intros w.
  destruct (uploaded_file_is_previewable "/tmp" (1002 # 10) (Upload "a.pdf" [Byte.x0a])
              (World (@init unit true) ∅ []) [tt; tt] "Unable to get page count")
    as (H1 & _ & H2 & _ & _ & H3); [discriminate |].
  split; [exact H1 |]. split; [exact H2 |]. unfold w. rewrite H3. reflexivity.
Defined.

(** [cleanup] can be run twice without harm, it leaves the kiosk's
    attributes alone, [self.current_file] included, and after it no preview
    is possible: whatever the renderer would answer, [show_preview] reports
    "File not found" and goes back to Welcome. *)
Theorem cleanup_ends_the_session {image : Type}
    (w : world image) (convert : outcome (list image)) :
  cleanup (cleanup w) = cleanup w
  ∧ app (cleanup w) = app w
  ∧ preview_in convert (cleanup w) = (show_welcome (app w), [("Error", "File not found")]).
Proof.
  unfold cleanup, preview_in, show_preview.
  destruct w as [k disk queue]. simpl.
  destruct (current_file k) as [path |] eqn:Hfile; simpl; [| rewrite Hfile; repeat split].
  destruct (String.eqb path "") eqn:Hempty; simpl.
  { rewrite Hfile. simpl. rewrite Hempty. repeat split. }
  destruct (disk !! path) as [bytes |] eqn:Hdisk; simpl;
    rewrite Hfile; simpl; rewrite Hempty; simpl.
  - rewrite lookup_delete_eq. simpl. repeat split.
  - rewrite Hdisk. simpl. repeat split.
Qed.

(** A failed preview shows one error dialog, returns to Welcome and leaves
    every attribute of the kiosk, the pages of the previous preview among
    them, as it was; a successful one shows no dialog, is on the Preview
    screen at page index 0 with the new pages, and has reset the four option
    controls to "all", the placeholder, "portrait" and "none". *)
Theorem show_preview_fails_or_resets {image : Type}
    (disk : gmap string (list Byte.byte)) (convert : outcome (list image))
    (k : kiosk image) :
  (∃ msg, show_preview disk convert k = (show_welcome k, [("Error", msg)]))
  ∨ (∃ images,
       convert = Normal images
       ∧ (show_preview disk convert k).2 = []
       ∧ current_screen (show_preview disk convert k).1 = Preview
       ∧ preview_images (show_preview disk convert k).1 = images
       ∧ current_page (show_preview disk convert k).1 = 0
       ∧ current_file (show_preview disk convert k).1 = current_file k
       ∧ print_settings (show_preview disk convert k).1 = print_settings k
       ∧ page_range_var (show_preview disk convert k).1 = "all"
       ∧ custom_range (show_preview disk convert k).1 = PLACEHOLDER
       ∧ orientation_var (show_preview disk convert k).1 = "portrait"
       ∧ duplex_var (show_preview disk convert k).1 = "none").
Proof.
  unfold show_preview.
  destruct (_ || _); [left; eexists; reflexivity |].
  destruct convert as [images | e]; [| left; eexists; reflexivity].
  right. exists images. repeat split.
Qed.

(** The choices of one preview do not leak into the next: Print pressed
    right after a successful [show_preview] submits page range "all",
    portrait and single-sided, whatever was selected before. *)
Theorem preview_resets_print_options {image : Type}
    (disk : gmap string (list Byte.byte)) (images : list image) (k : kiosk image) :
  truthy (current_file k) = true →
  is_Some (current_file k ≫= λ path, disk !! path) →
  print_settings (start_printing (show_preview disk (Normal images) k).1)
    = PrintSettings "all" "portrait" "none"
  ∧ build_options (print_settings (start_printing (show_preview disk (Normal images) k).1))
    = {["orientation-requested" := "3"; "sides" := "one-sided"]}.
Proof.
  intros Hfile Hexists. unfold show_preview.
  change (current_file (set_screen Preview k)) with (current_file k).
  rewrite Hfile, (bool_decide_eq_true_2 _ Hexists). simpl.
  split; reflexivity.
Qed.

(** Landscape, short-edge duplex and pages "2-3" were chosen for an earlier
    document. *)
Lemma preview_resets_print_options_witness :
  let k := set_option_vars "custom" "2-3" "landscape" "short"
             (set_current_file (Some "/tmp/print_100_a.pdf") (@init unit true)) in
  let disk : gmap string (list Byte.byte) := {["/tmp/print_100_a.pdf" := [Byte.x0a]]} in
  print_settings (start_printing k) = PrintSettings "2-3" "landscape" "short"
  ∧ print_settings (start_printing (show_preview disk (Normal [tt]) k).1)
    = PrintSettings "all" "portrait" "none".
Proof.
  intros k disk.
  destruct (preview_resets_print_options disk [tt] k) as [Hsettings _].
  - reflexivity.
  - exists [Byte.x0a]. reflexivity.
  - split; [reflexivity | exact Hsettings].
Defined.

(** ** Paging through the preview *)

Section Paging.

Context {image : Type}.
Implicit Types (k : kiosk image).

Lemma next_page_preview_images k : preview_images (next_page k) = preview_images k.
Proof. unfold next_page. destruct (_ <? _); reflexivity. Qed.

Lemma prev_page_preview_images k : preview_images (prev_page k) = preview_images k.
Proof. unfold prev_page. destruct (_ <? _); reflexivity. Qed.

Lemma set_current_page_same k p : p = current_page k → set_current_page p k = k.
Proof. intros ->. destruct k; reflexivity. Qed.

Lemma nonempty_length (l : list image) : l ≠ [] → 1 ≤ Z.of_nat (length l).
Proof. destruct l; [contradiction | simpl; lia]. Qed.

End Paging.

(** In every state the session reaches from its initial state,
    [update_preview] does not raise [IndexError]: with no pages it draws
    nothing, and otherwise it draws the page at [current_page], and the
    number it shows in "Page i of n" lies between 1 and n. *)
Theorem reachable_preview_draws {image : Type} (conn : bool) (evs : list (event image)) :
  (preview_images (run_events (init conn) evs) = [] →
   update_preview (run_events (init conn) evs) = Normal None)
  ∧ (preview_images (run_events (init conn) evs) ≠ [] →
     ∃ img,
       update_preview (run_events (init conn) evs) = Normal (Some img)
       ∧ preview_images (run_events (init conn) evs)
           !! Z.to_nat (current_page (run_events (init conn) evs)) = Some img
       ∧ 1 ≤ current_page (run_events (init conn) evs) + 1
           ≤ Z.of_nat (length (preview_images (run_events (init conn) evs)))).
Proof.
  pose proof (run_events_page_index_ok (init conn) evs (init_page_index_ok conn)) as Hok.
  set (k := run_events (init conn) evs) in *. split.
  - intros Hempty. unfold update_preview. rewrite Hempty. reflexivity.
  - intros Hpages.
    destruct (update_preview_draws k Hok Hpages) as (img & Hdraw & Himg).
    exists img. split; [exact Hdraw |]. split; [exact Himg |].
    destruct Hok as [Hlo Hhi]. pose proof (nonempty_length _ Hpages). lia.
Qed.

(** A document of two pages, paged forward three times. *)
Lemma reachable_preview_draws_witness :
  let disk : gmap string (list Byte.byte) := {["/tmp/print_100_a.pdf" := [Byte.x0a]]} in
  let k := run_events (@init bool true)
             [EvUpload "/tmp/print_100_a.pdf"; EvShowPreview disk (Normal [false; true]);
              EvNextPage; EvNextPage; EvNextPage] in
  update_preview k = Normal (Some true).
Proof.
  intros disk k.
  destruct (proj2 (reachable_preview_draws true
              [EvUpload "/tmp/print_100_a.pdf"; EvShowPreview disk (Normal [false; true]);
               EvNextPage; EvNextPage; EvNextPage]))
    as (img & Hdraw & Himg & _); [discriminate |].
  assert (Hlast : img = true) by (vm_compute in Himg; congruence).
  rewrite <- Hlast. exact Hdraw.
Defined.

(** Next and Previous undo each other: on a page index within bounds, a press
    on an enabled Next followed by Previous, or on an enabled Previous
    followed by Next, gives back the very same state, and a press on a
    disabled button changes nothing. *)
Theorem next_prev_round_trip {image : Type} (k : kiosk image) :
  page_index_ok k → preview_images k ≠ [] →
  (next_enabled k = true → prev_page (next_page k) = k)
  ∧ (prev_enabled k = true → next_page (prev_page k) = k)
  ∧ (next_enabled k = false → next_page k = k)
  ∧ (prev_enabled k = false → prev_page k = k).
Proof.
  intros [Hlo Hhi] Hpages. specialize (Hhi (nonempty_length _ Hpages)).
  unfold next_enabled, prev_enabled.
  split; [| split; [| split]]; intros Hbutton.
  - unfold next_page. rewrite Hbutton. apply Z.ltb_lt in Hbutton.
    unfold prev_page.
    change (current_page (set_current_page (current_page k + 1) k))
      with (current_page k + 1).
    destruct (Z.ltb_spec 0 (current_page k + 1)); [| lia].
    destruct k; unfold set_current_page; simpl in *. f_equal. lia.
  - unfold prev_page. rewrite Hbutton. apply Z.ltb_lt in Hbutton.
    unfold next_page.
    change (current_page (set_current_page (current_page k - 1) k))
      with (current_page k - 1).
    change (preview_images (set_current_page (current_page k - 1) k))
      with (preview_images k).
    destruct (Z.ltb_spec (current_page k - 1) (Z.of_nat (length (preview_images k)) - 1));
      [| lia].
    destruct k; unfold set_current_page; simpl in *. f_equal. lia.
  - unfold next_page. rewrite Hbutton. reflexivity.
  - unfold prev_page. rewrite Hbutton. reflexivity.
Qed.

Lemma next_prev_round_trip_witness :
  let k := set_current_page 1 (set_preview_images [tt; tt; tt] (@init unit true)) in
  prev_page (next_page k) = k ∧ next_page (prev_page k) = k.
Proof.
  intros k.
  destruct (next_prev_round_trip k) as (Hnext & Hprev & _).
  - split; simpl; lia.
  - discriminate.
  - split; [apply Hnext | apply Hprev]; reflexivity.
Defined.

(** Next stops at the last page and Previous at the first: from a page
    index [p] within bounds of a document of [n] pages, [m] presses on Next
    lead to page index [min (p + m) (n - 1)], and [m] presses on Previous to
    [max (p - m) 0]. *)
Theorem paging_saturates {image : Type} (k : kiosk image) (m : nat) :
  page_index_ok k → preview_images k ≠ [] →
  current_page (Nat.iter m next_page k)
    = Z.min (current_page k + Z.of_nat m) (Z.of_nat (length (preview_images k)) - 1)
  ∧ current_page (Nat.iter m prev_page k) = Z.max (current_page k - Z.of_nat m) 0.
Proof.
  intros [Hlo Hhi] Hpages. specialize (Hhi (nonempty_length _ Hpages)). split.
  - assert (Himages : ∀ j, preview_images (Nat.iter j next_page k) = preview_images k).
    { induction j as [| j IH]; [reflexivity |]. simpl.
      rewrite next_page_preview_images. exact IH. }
    induction m as [| m IH]; [simpl; lia |].
    simpl. unfold next_page at 1. rewrite Himages, IH.
    destruct (Z.ltb_spec
                (Z.min (current_page k + Z.of_nat m) (Z.of_nat (length (preview_images k)) - 1))
                (Z.of_nat (length (preview_images k)) - 1)); simpl; [| rewrite IH]; lia.
  - induction m as [| m IH]; [simpl; lia |].
    simpl. unfold prev_page at 1. rewrite IH.
    destruct (Z.ltb_spec 0 (Z.max (current_page k - Z.of_nat m) 0)); simpl;
      [| rewrite IH]; lia.
Qed.

(** Five pages, starting on the second. *)
Lemma paging_saturates_witness :
  let k := set_current_page 1 (set_preview_images [tt; tt; tt; tt; tt] (@init unit true)) in
  current_page (Nat.iter 2 next_page k) = 3
  ∧ current_page (Nat.iter 7 next_page k) = 4
  ∧ current_page (Nat.iter 7 prev_page k) = 0.
Proof.
  intros k.
  assert (Hok : page_index_ok k) by (split; simpl; lia).
  assert (Hpages : preview_images k ≠ []) by discriminate.
  destruct (paging_saturates k 2 Hok Hpages) as [H2 _].
  destruct (paging_saturates k 7 Hok Hpages) as [H7 H7'].
  split; [exact H2 |]. split; [exact H7 | exact H7'].
Defined.

(** ** Options for any settings *)

(** Every job carries an orientation and a sides option, whatever the
    settings hold: orientation is 4 for "landscape" and 3 for anything else,
    sides is two-sided-long-edge for "long", two-sided-short-edge for "short"
    and one-sided for anything else, and no key other than these two and
    page-ranges is ever set. *)
Theorem build_options_always_complete (s : settings) :
  build_options s !! "orientation-requested"
    = Some (if String.eqb (orientation s) "landscape" then "4" else "3")
  ∧ build_options s !! "sides"
    = Some (if String.eqb (duplex s) "long" then "two-sided-long-edge"
            else if String.eqb (duplex s) "short" then "two-sided-short-edge"
            else "one-sided")
  ∧ ∀ key, is_Some (build_options s !! key) →
      key = "page-ranges" ∨ key = "orientation-requested" ∨ key = "sides".
Proof.
  unfold build_options.
  destruct (String.eqb (page_range s) "all"); simpl;
    destruct (String.eqb (orientation s) "landscape");
    destruct (String.eqb (duplex s) "long");
    try destruct (String.eqb (duplex s) "short");
    (split; [reflexivity |]); (split; [reflexivity |]);
    intros key [v Hv];
    repeat (apply lookup_insert_Some in Hv;
            destruct Hv as [[<- _] | [_ Hv]]; [tauto |]);
    rewrite lookup_empty in Hv; discriminate Hv.
Qed.

(** ** The Konami code and the secret clicks *)

(** The keys remembered after one more key, while the memory holds at most
    ten: the last ten of the old keys followed by the new one. *)
Lemma konami_window (p : list string) (key : string) :
  (length p ≤ 10)%nat →
  (if (length KONAMI_CODE <? length (p ++ [key]))%nat
   then tail (p ++ [key]) else p ++ [key])
  = drop (length p + 1 - 10) p ++ [key].
Proof.
  intros Hlen. rewrite length_app. simpl.
  destruct (Nat.ltb_spec 10 (length p + 1)) as [Hfull | Hroom].
  - replace (length p + 1 - 10)%nat with 1%nat by lia.
    destruct p as [| x p]; [simpl in Hfull; lia | reflexivity].
  - replace (length p + 1 - 10)%nat with 0%nat by lia. reflexivity.
Qed.

Lemma check_konami_press (key : string) (g : eggs) :
  (length (konami_progress g) ≤ 10)%nat →
  check_konami (press key) g =
  if bool_decide (drop (length (konami_progress g) + 1 - 10) (konami_progress g) ++ [key]
                  = KONAMI_CODE)
  then Eggs [] (secret_clicks g) (S (parties g))
  else Eggs (drop (length (konami_progress g) + 1 - 10) (konami_progress g) ++ [key])
            (secret_clicks g) (parties g).
Proof.
  intros Hlen. unfold check_konami, press. simpl keysym. simpl char.
  replace (if bool_decide (key ∈ ["b"; "a"]) then key else key) with key
    by (destruct (bool_decide _); reflexivity).
  rewrite (konami_window _ key Hlen). reflexivity.
Qed.

Lemma check_konami_length (event : key_event) (g : eggs) :
  (length (konami_progress g) ≤ 10)%nat →
  (length (konami_progress (check_konami event g)) ≤ 10)%nat.
Proof.
  intros Hlen. unfold check_konami.
  set (key := if bool_decide (keysym event ∈ ["b"; "a"]) then char event else keysym event).
  rewrite (konami_window _ key Hlen).
  case_bool_decide; simpl; [lia |].
  rewrite length_app, length_drop. simpl. lia.
Qed.

Lemma key_presses_cons (event : key_event) (events : list key_event) (g : eggs) :
  key_presses (event :: events) g = key_presses events (check_konami event g).
Proof. reflexivity. Qed.

Lemma key_presses_app (events1 events2 : list key_event) (g : eggs) :
  key_presses (events1 ++ events2) g = key_presses events2 (key_presses events1 g).
Proof. unfold key_presses. apply foldl_app. Qed.

Lemma key_presses_length (events : list key_event) (g : eggs) :
  (length (konami_progress g) ≤ 10)%nat →
  (length (konami_progress (key_presses events g)) ≤ 10)%nat
  ∧ secret_clicks (key_presses events g) = secret_clicks g.
Proof.
  revert g. induction events as [| event events IH]; intros g Hlen;
    [split; [exact Hlen | reflexivity] |].
  rewrite key_presses_cons.
  destruct (IH (check_konami event g) (check_konami_length _ _ Hlen)) as [H1 H2].
  split; [exact H1 |]. rewrite H2. unfold check_konami.
  destruct (bool_decide _); reflexivity.
Qed.

(** Keys other than the last key of the code never start the party. *)
Lemma key_presses_no_party (keys : list string) (p : list string) (c : Z) (n : nat) :
  (length p ≤ 10)%nat → "a" ∉ keys →
  key_presses (press <$> keys) (Eggs p c n)
  = Eggs (drop (length (p ++ keys) - 10) (p ++ keys)) c n.
Proof.
  revert p. induction keys as [| key keys IH]; intros p Hlen Hkeys.
  - simpl. rewrite app_nil_r. replace (length p - 10)%nat with 0%nat by lia.
    reflexivity.
  - apply not_elem_of_cons in Hkeys. destruct Hkeys as [Hkey Hkeys].
    rewrite fmap_cons, key_presses_cons.
    rewrite check_konami_press by exact Hlen.
    simpl konami_progress. simpl secret_clicks. simpl parties.
    case_bool_decide as Hcode.
    + exfalso.
      change KONAMI_CODE
        with (["Up"; "Up"; "Down"; "Down"; "Left"; "Right"; "Left"; "Right"; "b"] ++ ["a"])
        in Hcode.
      apply app_inj_tail in Hcode. destruct Hcode as [_ Hcode]. congruence.
    + rewrite IH; [| rewrite length_app, length_drop; simpl; lia | exact Hkeys].
      f_equal.
      rewrite <- (drop_app_le p [key]) by lia.
      rewrite <- (drop_app_le (p ++ [key]) keys) by (rewrite length_app; simpl; lia).
      rewrite drop_drop, <- app_assoc. simpl. f_equal.
      rewrite length_drop, !length_app. simpl. lia.
Qed.

(** Whatever keys are pressed, [konami_progress] never holds more than the
    ten keys of the code, and key presses leave the click counter alone. *)
Theorem konami_progress_bounded (events : list key_event) :
  (length (konami_progress (key_presses events no_eggs)) ≤ length KONAMI_CODE)%nat
  ∧ secret_clicks (key_presses events no_eggs) = 0.
Proof. apply (key_presses_length events no_eggs). simpl. lia. Qed.

(** Typing the Konami code starts party mode exactly once, at its last key,
    whatever keys, at most ten of them, are remembered from before; the
    memory is empty afterwards. *)
Theorem konami_code_starts_party (g : eggs) :
  (length (konami_progress g) ≤ 10)%nat →
  key_presses (press <$> KONAMI_CODE) g = Eggs [] (secret_clicks g) (S (parties g))
  ∧ parties (key_presses (press <$> ["Up"; "Up"; "Down"; "Down"; "Left"; "Right";
                                       "Left"; "Right"; "b"]) g) = parties g.
Proof.
  intros Hlen. destruct g as [p c n]. simpl in Hlen.
  assert (Hnine : key_presses (press <$> ["Up"; "Up"; "Down"; "Down"; "Left"; "Right";
                                            "Left"; "Right"; "b"]) (Eggs p c n)
                  = Eggs (drop (length (p ++ ["Up"; "Up"; "Down"; "Down"; "Left"; "Right";
                                             "Left"; "Right"; "b"]) - 10)
                               (p ++ ["Up"; "Up"; "Down"; "Down"; "Left"; "Right";
                                      "Left"; "Right"; "b"])) c n).
  { apply key_presses_no_party; [exact Hlen |].
    intros Hin.
    repeat (apply elem_of_cons in Hin; destruct Hin as [Hin | Hin]; [discriminate Hin |]).
    apply elem_of_nil in Hin. exact Hin. }
  split; [| rewrite Hnine; reflexivity].
  change (press <$> KONAMI_CODE)
    with ((press <$> ["Up"; "Up"; "Down"; "Down"; "Left"; "Right"; "Left"; "Right"; "b"])
          ++ [press "a"]).
  rewrite key_presses_app, Hnine, key_presses_cons.
  rewrite check_konami_press
    by (simpl; rewrite length_drop, length_app; simpl; lia).
  simpl konami_progress. simpl secret_clicks. simpl parties.
  rewrite bool_decide_eq_true_2; [reflexivity |].
  rewrite length_drop, length_app. simpl length.
  rewrite drop_drop.
  replace (length p + 9 - 10 + (length p + 9 - (length p + 9 - 10) + 1 - 10))%nat
    with (length p) by lia.
  rewrite drop_app_length. reflexivity.
Qed.

(** The code typed after three stray keys. *)
Lemma konami_code_starts_party_witness :
  parties (key_presses (press <$> (["x"; "Up"; "a"] ++ KONAMI_CODE)) no_eggs) = 1%nat.
Proof.
  rewrite fmap_app, key_presses_app.
  rewrite (proj1 (konami_code_starts_party _
                    (proj1 (key_presses_length (press <$> ["x"; "Up"; "a"]) no_eggs
                              ltac:(simpl; lia))))).
  reflexivity.
Defined.

(** Every tenth click on the title starts party mode: after [n] clicks the
    counter holds [n mod 10] and party mode has been started [n / 10] times. *)
Theorem secret_click_every_tenth (n : nat) :
  Nat.iter n secret_click no_eggs
  = Eggs [] (Z.of_nat (n `mod` 10)) (n `div` 10).
Proof.
  induction n as [| n IH]; [reflexivity |].
  pose proof (Nat.div_mod_eq n 10) as Hn.
  pose proof (Nat.mod_upper_bound n 10 ltac:(lia)) as Hn'.
  pose proof (Nat.div_mod_eq (S n) 10) as HS.
  pose proof (Nat.mod_upper_bound (S n) 10 ltac:(lia)) as HS'.
  change (Nat.iter (S n) secret_click no_eggs)
    with (secret_click (Nat.iter n secret_click no_eggs)).
  rewrite IH. unfold secret_click.
  cbn [konami_progress secret_clicks parties].
  generalize dependent (n `div` 10)%nat. generalize dependent (n `mod` 10)%nat.
  generalize dependent (S n `div` 10)%nat. generalize dependent (S n `mod` 10)%nat.
  intros r' Hr' q' HS r Hr q _ Hn.
  destruct (Z.leb_spec 10 (Z.of_nat r + 1)) as [Hten | Hless]; f_equal; lia.
Qed.

(** ** The countdown of the success screen and the spinner *)

Section TimerFacts.

Context {image : Type}.
Implicit Types (k : kiosk image).

Lemma set_countdown_same k c : c = countdown k → set_countdown c k = k.
Proof. intros ->. destruct k; reflexivity. Qed.

(** While the countdown is running, each call takes one off and asks for
    the next call a second later. *)
Lemma countdown_chain_running (n : nat) k :
  current_screen k = Success → Z.of_nat n ≤ countdown k →
  countdown_chain n k = (set_countdown (countdown k - Z.of_nat n) k, 1000 * Z.of_nat n).
Proof.
  revert k. induction n as [| n IH]; intros k Hscreen Hn.
  - simpl. rewrite set_countdown_same by lia. reflexivity.
  - simpl countdown_chain. unfold do_countdown. rewrite Hscreen.
    destruct (Z.ltb_spec 0 (countdown k)); [| lia].
    rewrite IH; [| exact Hscreen | simpl; lia].
    simpl. f_equal; [| lia].
    unfold set_countdown. simpl. f_equal. lia.
Qed.

(** Off the success screen a call does nothing and asks for no other. *)
Lemma countdown_chain_elsewhere (n : nat) k :
  current_screen k ≠ Success → countdown_chain n k = (k, 0).
Proof.
  intros Hscreen. destruct n as [| n]; [reflexivity |].
  simpl. unfold do_countdown.
  destruct (current_screen k); try reflexivity. contradiction.
Qed.

End TimerFacts.

(** On the success screen with [c] seconds to go, the chain of
    [do_countdown] calls counts down once a second and, at the call after
    the one that reaches 0, returns to Welcome and stops: [c + 1] calls and
    [c] seconds in all, however long the Tk loop goes on.  If another screen
    has been shown in the meantime, the next call changes nothing and the
    chain stops. *)
Theorem countdown_returns_to_welcome {image : Type} (k : kiosk image) (n more : nat) :
  current_screen k = Success → 0 ≤ countdown k → Z.of_nat n ≤ countdown k →
  countdown_chain n k = (set_countdown (countdown k - Z.of_nat n) k, 1000 * Z.of_nat n)
  ∧ countdown_chain (Z.to_nat (countdown k) + 1 + more) k
    = (show_welcome (set_countdown 0 k), 1000 * countdown k)
  ∧ ∀ sc, sc ≠ Success →
      countdown_chain more (set_screen sc (countdown_chain n k).1)
      = (set_screen sc (countdown_chain n k).1, 0).
Proof.
  intros Hscreen Hc Hn. split; [apply countdown_chain_running; assumption |].
  split.
  - assert (Hgen : ∀ (c : nat) (k' : kiosk image),
              current_screen k' = Success → countdown k' = Z.of_nat c →
              countdown_chain (c + 1 + more) k'
              = (show_welcome (set_countdown 0 k'), 1000 * Z.of_nat c)).
    { induction c as [| c IH]; intros k' Hs Hk'.
      - simpl. unfold do_countdown. rewrite Hs, Hk'. simpl.
        rewrite set_countdown_same by (symmetry; exact Hk'). reflexivity.
      - change (S c + 1 + more)%nat with (S (c + 1 + more)).
        simpl countdown_chain. unfold do_countdown. rewrite Hs.
        destruct (Z.ltb_spec 0 (countdown k')); [| lia].
        rewrite IH; [| exact Hs | simpl; lia].
        f_equal; first [reflexivity | lia]. }
    rewrite (Hgen (Z.to_nat (countdown k)) k Hscreen) by lia.
    f_equal. lia.
  - intros sc Hsc. apply countdown_chain_elsewhere. destruct sc; simpl; congruence.
Qed.

(** The success screen as [show_success] leaves it: five seconds after it
    is shown, at the sixth call of [do_countdown], the kiosk is back on
    Welcome; an upload confirmed after two seconds stops the countdown. *)
Lemma countdown_returns_to_welcome_witness :
  let k := show_success (@init unit true) in
  countdown_chain 6 k = (show_welcome (set_countdown 0 k), 5000)
  ∧ countdown_chain 3 k = (set_countdown 2 k, 3000)
  ∧ current_screen
      (countdown_chain 4 (show_file_confirmation (countdown_chain 3 k).1)).1
    = Confirmation.
Proof.
  intros k.
  destruct (countdown_returns_to_welcome k 3 0) as (Hthree & Hsix & _);
    [reflexivity | simpl; lia | simpl; lia |].
  destruct (countdown_returns_to_welcome k 3 4) as (_ & _ & Hstop);
    [reflexivity | simpl; lia | simpl; lia |].
  split; [exact Hsix |]. split; [exact Hthree |].
  unfold show_file_confirmation. rewrite (Hstop Confirmation) by discriminate.
  reflexivity.
Defined.

(** While the printing screen is shown the spinner turns by 10 degrees per
    frame and wraps at 360: from 0, the angle after [n] frames is
    [10 n mod 360], it always lies in [0, 360), and 36 frames make a full
    turn.  On any other screen a frame changes nothing and asks for no
    further frame. *)
Theorem spinner_turns_while_printing {image : Type} (k : kiosk image) (n : nat) :
  (current_screen k = Printing →
   Nat.iter n (λ angle, (draw_spinner k angle).1) 0 = (10 * Z.of_nat n) `mod` 360
   ∧ 0 ≤ Nat.iter n (λ angle, (draw_spinner k angle).1) 0 < 360
   ∧ Nat.iter (n + 36) (λ angle, (draw_spinner k angle).1) 0
     = Nat.iter n (λ angle, (draw_spinner k angle).1) 0)
  ∧ (current_screen k ≠ Printing → ∀ angle, draw_spinner k angle = (angle, None)).
Proof.
  split.
  - intros Hscreen.
    assert (Hgen : ∀ m, Nat.iter m (λ angle, (draw_spinner k angle).1) 0
                        = (10 * Z.of_nat m) `mod` 360).
    { induction m as [| m IH]; [reflexivity |].
      simpl Nat.iter. rewrite IH. unfold draw_spinner. rewrite Hscreen. simpl fst.
      rewrite Zplus_mod_idemp_l. f_equal. lia. }
    rewrite !Hgen. split; [reflexivity |]. split.
    + apply Z.mod_pos_bound. lia.
    + replace (10 * Z.of_nat (n + 36)) with (10 * Z.of_nat n + 1 * 360) by lia.
      apply Z_mod_plus_full.
  - intros Hscreen angle. unfold draw_spinner.
    destruct (current_screen k); try reflexivity. contradiction.
Qed.

Lemma spinner_turns_while_printing_witness :
  let k := start_printing (@init unit true) in
  Nat.iter 40 (λ angle, (draw_spinner k angle).1) 0 = 40
  ∧ draw_spinner (show_welcome k) 40 = (40, None).
Proof.
  intros k.
  destruct (spinner_turns_while_printing k 40) as [Hturn _].
  destruct (spinner_turns_while_printing (show_welcome k) 40) as [_ Hstop].
  destruct (Hturn eq_refl) as (Hangle & _).
  split; [rewrite Hangle; reflexivity | apply Hstop; discriminate].
Defined.

(** ** When a job is restricted to a page range *)

(** The job that Print submits carries a page-ranges option exactly when
    Custom is selected and the entry holds something other than "all" and
    the placeholder, and the option is then the text of the entry; with "All
    Pages" selected the entry is ignored whatever it holds. *)
Theorem page_ranges_option_iff_custom {image : Type} (k : kiosk image) (text : string) :
  page_ranges_option k = Some text
  ↔ page_range_var k = "custom" ∧ custom_range k = text
    ∧ text ≠ "all" ∧ text ≠ PLACEHOLDER.
Proof.
  unfold page_ranges_option.
  rewrite build_options_page_ranges, start_printing_page_range.
  destruct (String.eqb_spec (page_range_var k) "custom") as [Hvar | Hvar].
  - destruct (String.eqb_spec (custom_range k) PLACEHOLDER) as [Hph | Hph].
    + simpl. split; [discriminate |]. intros (_ & <- & _ & Hne). contradiction.
    + destruct (String.eqb_spec (custom_range k) "all") as [Hall | Hall].
      * split; [discriminate |]. intros (_ & <- & Hne & _). contradiction.
      * split.
        -- intros [= <-]. repeat split; assumption.
        -- intros (_ & <- & _). reflexivity.
  - simpl. split; [discriminate |]. intros (Hcustom & _). contradiction.
Qed.
